(** * star-capture-suite: the state logic of the control-panel components

    A shallow embedding of the stateful parts of the React components:

    - [SequencePlanner]: the list of planned sequence items, the
      "Add Sequence" form, [addSequence], [totalDuration] and
      [formatDuration];
    - [FileLibrary]: the mock file list, [filteredFiles] and [groupedFiles];
    - [TelemetryPanel]: the telemetry record, its one-second update,
      [formatTime] and [getTemperatureColor];
    - [CameraPreview]: the overlay toggles and the zoom;
    - [Index] with [NavigationBar]: the tabs and the capture flags.

    A component is embedded as its state (one field per [useState] cell), an
    event type (one constructor per handler wired in the JSX) and a handler
    function; values derived during render are functions of the state.  Each
    event is handled against the state of the latest render.

    JavaScript values are embedded as follows.
    - Strings are sequences of code units; the embedding covers the code units
      U+0000 to U+00FF, one [ascii] each.
    - Numbers in the planner are integral doubles, the two infinities or NaN
      ([JS.number]); the sign of zero is not tracked, since no embedded
      operation distinguishes -0 from +0.
    - Numbers in the telemetry panel are finite and fractional; they are
      embedded as rationals, and every arithmetic result is passed through a
      rounding function that the theorems quantify over. *)

From stdpp Require Import base list.
From Stdlib Require Import ZArith QArith Qminmax Qround Qabs Lia Lqa.
From Stdlib Require Import String Ascii DecimalString DecimalN DecimalZ.

Local Open Scope string_scope.
Local Open Scope Z_scope.

(** ** The JavaScript built-ins the components call *)

Module JS.

(** *** Numbers *)

Inductive number : Type :=
| NaN
| Infinity (negative : bool)
| Int (z : Z).

(** Round a non-negative integer to the nearest one with a 53-bit
    significand, ties to even. *)
Definition round53 (m : Z) : Z :=
  let e := Z.log2 m - 52 in
  if e <=? 0 then m
  else
    let q := Z.shiftr m e in
    let r := m - Z.shiftl q e in
    let half := Z.shiftl 1 (e - 1) in
    let q' := if r <? half then q
              else if half <? r then q + 1
              else if Z.even q then q else q + 1 in
    Z.shiftl q' e.

(** The Number value of a mathematical integer. *)
Definition of_Z (z : Z) : number :=
  let m := round53 (Z.abs z) in
  if 2 ^ 1024 <=? m then Infinity (z <? 0) else Int (Z.sgn z * m).

Definition add (a b : number) : number :=
  match a, b with
  | NaN, _ | _, NaN => NaN
  | Infinity s, Infinity t => if Bool.eqb s t then Infinity s else NaN
  | Infinity s, Int _ | Int _, Infinity s => Infinity s
  | Int x, Int y => of_Z (x + y)
  end.

Definition mul (a b : number) : number :=
  match a, b with
  | NaN, _ | _, NaN => NaN
  | Infinity s, Infinity t => Infinity (xorb s t)
  | Infinity s, Int x | Int x, Infinity s =>
      if x =? 0 then NaN else Infinity (xorb s (x <? 0))
  | Int x, Int y => of_Z (x * y)
  end.

Definition neg (a : number) : number :=
  match a with
  | NaN => NaN
  | Infinity s => Infinity (negb s)
  | Int x => Int (- x)
  end.

Definition sub (a b : number) : number := add a (neg b).

(** [a === b] on numbers. *)
Definition strict_eq (a b : number) : bool :=
  match a, b with
  | Infinity s, Infinity t => Bool.eqb s t
  | Int x, Int y => x =? y
  | _, _ => false
  end.

(** [a <= b] on numbers. *)
Definition le (a b : number) : bool :=
  match a, b with
  | NaN, _ | _, NaN => false
  | Infinity s, Infinity t => implb t s
  | Infinity s, Int _ => s
  | Int _, Infinity t => negb t
  | Int x, Int y => x <=? y
  end.

(** ToBoolean on numbers: NaN and zero are falsy. *)
Definition truthy (a : number) : bool :=
  match a with
  | NaN => false
  | Infinity _ => true
  | Int z => negb (z =? 0)
  end.

(** [a || b] on numbers. *)
Definition or (a b : number) : number := if truthy a then a else b.

(** [Number.isInteger(a) && a > 0]. *)
Definition positive_integer (a : number) : bool :=
  match a with
  | Int z => 0 <? z
  | _ => false
  end.

(** *** Strings *)

Definition code (c : ascii) : Z := Z.of_N (N_of_ascii c).

(** The double quote, U+0022. *)
Definition dquote : ascii := "034"%char.

(** White space and line terminators below U+0100, as skipped by
    [parseInt]: TAB, LF, VT, FF, CR, SP, NBSP. *)
Definition is_white_space (c : ascii) : bool :=
  let n := code c in
  ((9 <=? n) && (n <=? 13)) || (n =? 32) || (n =? 160).

Fixpoint skip_white_space (s : string) : string :=
  match s with
  | String c rest => if is_white_space c then skip_white_space rest else s
  | EmptyString => s
  end.

(** The value of [c] as a digit in radix 10 or 16. *)
Definition digit_value (radix : Z) (c : ascii) : option Z :=
  let n := code c in
  if (48 <=? n) && (n <=? 57) then Some (n - 48)
  else if radix =? 16 then
    if (97 <=? n) && (n <=? 102) then Some (n - 87)
    else if (65 <=? n) && (n <=? 70) then Some (n - 55)
    else None
  else None.

(** Consume the longest prefix of radix-[radix] digits; [acc] is [None]
    until a digit has been read. *)
Fixpoint parse_digits (radix : Z) (s : string) (acc : option Z) : option Z :=
  match s with
  | String c rest =>
      match digit_value radix c with
      | Some d => parse_digits radix rest (Some (radix * default 0 acc + d))
      | None => acc
      end
  | EmptyString => acc
  end.

Definition strip_sign (s : string) : bool * string :=
  match s with
  | String "-" rest => (true, rest)
  | String "+" rest => (false, rest)
  | _ => (false, s)
  end.

Definition strip_hex_prefix (s : string) : Z * string :=
  match s with
  | String "0" (String "x" rest) | String "0" (String "X" rest) => (16, rest)
  | _ => (10, s)
  end.

(** [parseInt(s)] with no radix argument. *)
Definition parseInt (s : string) : number :=
  let '(negative, s1) := strip_sign (skip_white_space s) in
  let '(radix, s2) := strip_hex_prefix s1 in
  match parse_digits radix s2 None with
  | None => NaN
  | Some mathInt => of_Z (if negative then - mathInt else mathInt)
  end.

(** [s.replace(pattern, replacement)] for a string pattern and a replacement
    without [$] patterns: only the first occurrence is replaced. *)
Fixpoint replace (s pattern replacement : string) : string :=
  if String.prefix pattern s
  then replacement ++ String.substring (String.length pattern)
                        (String.length s - String.length pattern) s
  else match s with
       | String c rest => String c (replace rest pattern replacement)
       | EmptyString => EmptyString
       end.

Definition lower_char (c : ascii) : ascii :=
  let n := code c in
  if ((65 <=? n) && (n <=? 90))
     || ((192 <=? n) && (n <=? 222) && negb (n =? 215))
  then ascii_of_N (Z.to_N (n + 32))
  else c.

(** [s.toLowerCase()]. *)
Fixpoint toLowerCase (s : string) : string :=
  match s with
  | String c rest => String (lower_char c) (toLowerCase rest)
  | EmptyString => EmptyString
  end.

(** [s.includes(t)]. *)
Fixpoint includes (s t : string) : bool :=
  if String.prefix t s then true
  else match s with
       | String _ rest => includes rest t
       | EmptyString => false
       end.

(** [n.toString()] for a non-negative integer such as [Date.now()]. *)
Definition toString (n : N) : string :=
  NilZero.string_of_uint (N.to_uint n).

(** *** Division, remainder and text of numbers *)

(** [Math.floor(a / d)] for a positive integer literal [d].  The quotient of
    two doubles is rounded to a double by [rnd]; its floor is a double. *)
Definition floor_div (rnd : Q -> Q) (a : number) (d : positive) : number :=
  match a with
  | NaN => NaN
  | Infinity s => Infinity s
  | Int x => Int (Qfloor (rnd (inject_Z x / inject_Z (Zpos d))%Q))
  end.

(** [a % d] for a positive integer literal [d]: exact, with the sign of the
    dividend. *)
Definition rem (a : number) (d : positive) : number :=
  match a with
  | NaN | Infinity _ => NaN
  | Int x => Int (Z.rem x (Zpos d))
  end.

(** The decimal text of an integer, with a minus sign when negative. *)
Definition integer_text (z : Z) : string :=
  NilZero.string_of_int (Z.to_int z).

(** ToString on numbers, as applied by a template literal.  Below 2^53 the
    text of an integer is its decimal digits; from 2^53 on it is the
    shortest digits that read back as the same double, and from 10^21 on it
    is in exponent notation, both of which the embedding leaves out
    ([None]). *)
Definition number_text (a : number) : option string :=
  match a with
  | NaN => Some "NaN"
  | Infinity s => Some (if s then "-Infinity" else "Infinity")
  | Int z => if Z.abs z <? 2 ^ 53 then Some (integer_text z) else None
  end.

(** [x % d] on finite numbers, for a positive integer literal [d]. *)
Definition Qrem (x : Q) (d : positive) : Q :=
  (x - inject_Z (Zpos d)
       * inject_Z (Z.quot (Qnum x) (Zpos (Qden x) * Zpos d)))%Q.

(** ToString on a finite number: the decimal digits of an integral value
    below 2^53; the text of a larger or of a fractional value is left out
    ([None]). *)
Definition Q_text (x : Q) : option string :=
  if Qeq_bool x (inject_Z (Qfloor x)) && (Z.abs (Qfloor x) <? 2 ^ 53)
  then Some (integer_text (Qfloor x))
  else None.

(** [s.padStart(n, c)] for a one-character filler. *)
Definition padStart (s : string) (n : nat) (c : ascii) : string :=
  String.concat "" (List.repeat (String c "") (n - String.length s)) ++ s.

(** [Math.round(x)]: the nearest integer, ties upwards. *)
Definition round (x : Q) : Z := Qfloor (x + (1 # 2)).

(** Rounding to a double keeps a relative error of at most 2^-53 on
    magnitudes between 2^-12 and 2^53, where nothing underflows or
    overflows. *)
Definition relative_error (rnd : Q -> Q) : Prop :=
  forall x : Q,
    ((1 # 4096) <= Qabs x)%Q -> (Qabs x <= inject_Z (2 ^ 53))%Q ->
    (Qabs (rnd x - x) <= Qabs x * (1 # 9007199254740992))%Q.

(** Rounding to a double is exact on quarters up to 2^51. *)
Definition exact_on_quarters (rnd : Q -> Q) : Prop :=
  forall (x : Q) (k : Z),
    Z.abs k <= 2 ^ 53 -> (x == k # 4)%Q -> (rnd x == k # 4)%Q.

End JS.

(** ** SequencePlanner *)

Module Planner.
Import JS.

Inductive SequenceType : Type := subs | darks | bias | flats.

(** The string literal type of [SequenceItem.status]. *)
Inductive Status : Type := Pending | Running | Completed | Paused.

(** The run-time value of a status: the string rendered in the badge. *)
Definition status_text (s : Status) : string :=
  match s with
  | Pending => "pending"
  | Running => "running"
  | Completed => "completed"
  | Paused => "paused"
  end.

Definition status_eqb (a b : Status) : bool :=
  String.eqb (status_text a) (status_text b).

(** [interval] is not declared by the interface; the objects built by
    [addSequence] carry it because they spread the form state. *)
Record SequenceItem : Type := {
  id : string;
  type : SequenceType;
  frames : number;
  exposure : string;
  gain : number;
  completed : number;
  status : Status;
  interval : option number
}.

(** The state of the "Add Sequence" form. *)
Record NewSequence : Type := {
  new_type : SequenceType;
  new_frames : number;
  new_exposure : string;
  new_gain : number;
  new_interval : number
}.

Record State : Type := {
  sequences : list SequenceItem;
  newSequence : NewSequence
}.

(** The text 300 followed by a double quote. *)
Definition exposure_300 : string := "300" ++ String dquote "".

Definition initial : State := {|
  sequences := [
    {| id := "1"; type := subs; frames := Int 30; exposure := exposure_300;
       gain := Int 1600; completed := Int 12; status := Running;
       interval := None |};
    {| id := "2"; type := darks; frames := Int 10; exposure := exposure_300;
       gain := Int 1600; completed := Int 0; status := Pending;
       interval := None |} ];
  newSequence := {|
    new_type := subs; new_frames := Int 30; new_exposure := exposure_300;
    new_gain := Int 1600; new_interval := Int 5 |}
|}.

(** [now] is the value read from [Date.now()]. *)
Definition addSequence (now : N) (st : State) : State :=
  let form := newSequence st in
  let sequence := {|
    id := toString now;
    type := new_type form;
    frames := new_frames form;
    exposure := new_exposure form;
    gain := new_gain form;
    interval := Some (new_interval form);
    completed := Int 0;
    status := Pending |} in
  {| sequences := sequences st ++ [sequence]; newSequence := form |}.

Definition exposureSeconds (seq : SequenceItem) : number :=
  or (parseInt (replace (exposure seq) (String dquote "") "")) (Int 0).

Definition totalDuration (sequences : list SequenceItem) : number :=
  fold_left
    (fun total seq => add total (mul (frames seq) (exposureSeconds seq)))
    sequences (Int 0).

(** The handlers wired in the JSX.  The Start, Pause and Stop buttons have
    no handler. *)
Inductive Event : Type :=
| TypeChange (value : SequenceType)
| FramesChange (value : string)
| ExposureChange (value : string)
| GainChange (value : string)
| AddClick (now : N).

Definition setNewSequence (form : NewSequence) (st : State) : State :=
  {| sequences := sequences st; newSequence := form |}.

Definition handle (e : Event) (st : State) : State :=
  let form := newSequence st in
  match e with
  | TypeChange value =>
      setNewSequence {| new_type := value; new_frames := new_frames form;
                        new_exposure := new_exposure form;
                        new_gain := new_gain form;
                        new_interval := new_interval form |} st
  | FramesChange value =>
      setNewSequence {| new_type := new_type form;
                        new_frames := parseInt value;
                        new_exposure := new_exposure form;
                        new_gain := new_gain form;
                        new_interval := new_interval form |} st
  | ExposureChange value =>
      setNewSequence {| new_type := new_type form;
                        new_frames := new_frames form;
                        new_exposure := value;
                        new_gain := new_gain form;
                        new_interval := new_interval form |} st
  | GainChange value =>
      setNewSequence {| new_type := new_type form;
                        new_frames := new_frames form;
                        new_exposure := new_exposure form;
                        new_gain := parseInt value;
                        new_interval := new_interval form |} st
  | AddClick now => addSequence now st
  end.

(** The state after a series of events, oldest first. *)
Definition run (events : list Event) (st : State) : State :=
  fold_left (fun st e => handle e st) events st.

(** The number of items whose status is ['running']. *)
Definition running_count (items : list SequenceItem) : nat :=
  List.length (List.filter (fun seq => status_eqb (status seq) Running) items).

(** The six status names of the specification's data model. *)
Definition spec_status_names : list string :=
  ["pending"; "running"; "paused"; "completed"; "failed"; "skipped"].

(** The remaining-time figure as the specification words it: remaining
    frames times exposure seconds, over pending and running groups only. *)
Definition spec_remainingSeconds (items : list SequenceItem) : number :=
  fold_left
    (fun total seq =>
       if status_eqb (status seq) Pending || status_eqb (status seq) Running
       then add total (mul (sub (frames seq) (completed seq))
                           (exposureSeconds seq))
       else total)
    items (Int 0).

(** What the code of [addSequence] puts into the item it appends. *)
Definition fresh (form : NewSequence) (item : SequenceItem) : Prop :=
  status item = Pending /\ completed item = Int 0
  /\ frames item = new_frames form /\ exposure item = new_exposure form
  /\ gain item = new_gain form /\ type item = new_type form.

(** The four status names of the [SequenceItem] interface. *)
Definition status_names : list string :=
  ["pending"; "running"; "completed"; "paused"].

(** Two items planned alike: same frames and exposure, whatever their
    progress. *)
Definition same_plan (a b : SequenceItem) : Prop :=
  frames a = frames b /\ exposure a = exposure b.

Definition total (zs : list Z) : Z := foldr Z.add 0 zs.

(** The sum of the absolute values, a bound on every partial sum. *)
Definition magnitude (zs : list Z) : Z :=
  foldr (fun z acc => Z.abs z + acc) 0 zs.

(** The exact product [frames * exposureSeconds] of an item whose two
    factors are integers. *)
Definition planned_seconds (seq : SequenceItem) : option Z :=
  match frames seq, exposureSeconds seq with
  | Int f, Int e => Some (f * e)
  | _, _ => None
  end.

(** [formatDuration(seconds)]: hours and minutes of a duration. *)
Definition formatDuration (rnd : Q -> Q) (seconds : number) : option string :=
  let hours := floor_div rnd seconds 3600 in
  let minutes := floor_div rnd (rem seconds 3600) 60 in
  match number_text hours, number_text minutes with
  | Some h, Some m => Some (h ++ "h " ++ m ++ "m")
  | _, _ => None
  end.

(** The texts typed in the Frames field by a series of events, oldest
    first. *)
Definition frames_texts (events : list Event) : list string :=
  omap (fun e => match e with FramesChange value => Some value | _ => None end)
       events.

(** The frames count of the text last typed in the Frames field, or the one
    the form of [st] holds when nothing was typed. *)
Definition typed_frames (events : list Event) (st : State) : number :=
  match last (frames_texts events) with
  | Some value => parseInt value
  | None => new_frames (newSequence st)
  end.

(** The instants read by the Add clicks of a series of events. *)
Definition add_times (events : list Event) : list N :=
  omap (fun e => match e with AddClick now => Some now | _ => None end)
       events.

End Planner.

(** ** FileLibrary *)

Module Library.
Import JS.

Inductive FileType : Type := jpeg | dng | h264 | mjpeg | tiff | json.

Definition type_text (t : FileType) : string :=
  match t with
  | jpeg => "jpeg"
  | dng => "dng"
  | h264 => "h264"
  | mjpeg => "mjpeg"
  | tiff => "tiff"
  | json => "json"
  end.

Definition type_eqb (a b : FileType) : bool :=
  String.eqb (type_text a) (type_text b).

(** [types.includes(t)] on an array of file types. *)
Definition types_include (types : list FileType) (t : FileType) : bool :=
  existsb (type_eqb t) types.

Record Metadata : Type := {
  meta_exposure : option string;
  iso : option Z;
  resolution : option string;
  duration : option Z
}.

(** [timestamp] holds the text handed to the [Date] constructor. *)
Record FileItem : Type := {
  id : string;
  name : string;
  type : FileType;
  size : Z;
  timestamp : string;
  session : string;
  metadata : option Metadata
}.

Inductive ViewMode : Type := grid | list_view.

Record State : Type := {
  viewMode : ViewMode;
  sortBy : string;
  filterType : string;
  searchTerm : string
}.

Definition initial : State :=
  {| viewMode := grid; sortBy := "date"; filterType := "all";
     searchTerm := "" |}.

Definition exposure_300 : string := "300" ++ String dquote "".

(** The multiplication sign U+00D7 between width and height. *)
Definition times_sign : string := String "215"%char "".

Definition still_metadata : Metadata :=
  {| meta_exposure := Some exposure_300; iso := Some 1600;
     resolution := Some ("4056" ++ times_sign ++ "3040");
     duration := None |}.

Definition mockFiles : list FileItem := [
  {| id := "1"; name := "M31_001.dng"; type := dng; size := 25600000;
     timestamp := "2024-01-15T22:30:00"; session := "M31_20240115";
     metadata := Some still_metadata |};
  {| id := "2"; name := "M31_001.jpg"; type := jpeg; size := 8400000;
     timestamp := "2024-01-15T22:30:00"; session := "M31_20240115";
     metadata := Some still_metadata |};
  {| id := "3"; name := "preview_001.h264"; type := h264; size := 15600000;
     timestamp := "2024-01-15T22:25:00"; session := "M31_20240115";
     metadata := Some {| meta_exposure := None; iso := None;
                         resolution := Some ("1920" ++ times_sign ++ "1080");
                         duration := Some 30 |} |};
  {| id := "4"; name := "dark_001.dng"; type := dng; size := 25600000;
     timestamp := "2024-01-15T23:00:00"; session := "M31_20240115";
     metadata := Some still_metadata |};
  {| id := "5"; name := "session.json"; type := json; size := 2048;
     timestamp := "2024-01-15T22:00:00"; session := "M31_20240115";
     metadata := None |} ].

(** ToBoolean on strings: only the empty string is falsy. *)
Definition nonempty (s : string) : bool := negb (String.eqb s "").

(** The last test of the filter callback: the search box. *)
Definition matches_search (searchTerm : string) (file : FileItem) : bool :=
  if nonempty searchTerm
     && negb (includes (toLowerCase (name file)) (toLowerCase searchTerm))
  then false
  else true.

(** The callback handed to [mockFiles.filter], one [if] per [if] of the
    source. *)
Definition keep (filterType searchTerm : string) (file : FileItem) : bool :=
  if negb (String.eqb filterType "all") then
    if String.eqb filterType "image"
       && negb (types_include [jpeg; dng; tiff] (type file))
    then false
    else if String.eqb filterType "video"
            && negb (types_include [h264; mjpeg] (type file))
    then false
    else if String.eqb filterType "raw" && negb (type_eqb (type file) dng)
    then false
    else matches_search searchTerm file
  else matches_search searchTerm file.

Definition filteredFiles (st : State) : list FileItem :=
  List.filter (keep (filterType st) (searchTerm st)) mockFiles.

(** The handlers wired in the JSX: the search box, the two selects and the
    two view-mode buttons.  The View, Download and ZIP buttons have no
    handler. *)
Inductive Event : Type :=
| SearchChange (value : string)
| FilterChange (value : string)
| SortChange (value : string)
| ViewModeClick (mode : ViewMode).

Definition handle (e : Event) (st : State) : State :=
  match e with
  | SearchChange value =>
      {| viewMode := viewMode st; sortBy := sortBy st;
         filterType := filterType st; searchTerm := value |}
  | FilterChange value =>
      {| viewMode := viewMode st; sortBy := sortBy st;
         filterType := value; searchTerm := searchTerm st |}
  | SortChange value =>
      {| viewMode := viewMode st; sortBy := value;
         filterType := filterType st; searchTerm := searchTerm st |}
  | ViewModeClick mode =>
      {| viewMode := mode; sortBy := sortBy st;
         filterType := filterType st; searchTerm := searchTerm st |}
  end.

Definition run (events : list Event) (st : State) : State :=
  fold_left (fun st e => handle e st) events st.

(** The list rendered by the file browser tab; both view modes map over
    [filteredFiles], and [sortBy] is not read. *)
Definition displayed (st : State) : list FileItem :=
  match viewMode st with
  | grid => filteredFiles st
  | list_view => filteredFiles st
  end.

(** The four entries of the filter select. *)
Inductive Category : Type := AllFiles | Images | Videos | RawOnly.

Definition category_value (c : Category) : string :=
  match c with
  | AllFiles => "all"
  | Images => "image"
  | Videos => "video"
  | RawOnly => "raw"
  end.

(** The file types each entry of the filter select stands for. *)
Definition in_category (c : Category) (t : FileType) : Prop :=
  match c with
  | AllFiles => True
  | Images => t = jpeg \/ t = dng \/ t = tiff
  | Videos => t = h264 \/ t = mjpeg
  | RawOnly => t = dng
  end.

(** [s] contains [t] up to letter case: some substring of [s] has the
    same lower-case form as [t]. *)
Definition contains_ignoring_case (s t : string) : Prop :=
  exists before middle after : string,
    s = before ++ middle ++ after /\ toLowerCase middle = toLowerCase t.

(** *** Letter case, stated without [toLowerCase] *)

(** The code of a capital letter below U+0100: A to Z, and the accented
    capitals U+00C0 to U+00DE, which leave out the multiplication sign
    U+00D7. *)
Definition capital (n : Z) : Prop :=
  65 <= n <= 90 \/ (192 <= n <= 222 /\ n <> 215).

(** [small] is the small letter of the capital letter [big]: it lies 32
    code points above it. *)
Definition small_of (small big : ascii) : Prop :=
  capital (code big) /\ code small = code big + 32.

(** Two characters that are the same up to letter case. *)
Definition same_letter (a b : ascii) : Prop :=
  a = b \/ small_of a b \/ small_of b a.

(** Two strings that are the same up to letter case, character by
    character. *)
Fixpoint equal_up_to_case (s t : string) : Prop :=
  match s, t with
  | EmptyString, EmptyString => True
  | String a s', String b t' => same_letter a b /\ equal_up_to_case s' t'
  | _, _ => False
  end.

(** [s] contains [t] case-insensitively: some substring of [s] equals [t]
    up to letter case. *)
Definition contains_up_to_case (s t : string) : Prop :=
  exists before middle after : string,
    s = before ++ middle ++ after /\ equal_up_to_case middle t.

(** *** The Sessions tab *)

(** The object built by the [reduce] of [groupedFiles]: its own properties
    in creation order, which is the order of [Object.entries] for keys that
    are not array indices.  Every session name of the mock files is such a
    key, and none names a member of [Object.prototype]. *)
Definition Groups : Type := list (string * list FileItem).

(** [groups[key]]. *)
Fixpoint group_get (groups : Groups) (key : string) : option (list FileItem) :=
  match groups with
  | (k, files) :: rest =>
      if String.eqb k key then Some files else group_get rest key
  | [] => None
  end.

(** [groups[key] = files]: in place for an existing key, at the end for a
    new one. *)
Fixpoint group_set (groups : Groups) (key : string) (files : list FileItem)
  : Groups :=
  match groups with
  | (k, old) :: rest =>
      if String.eqb k key then (k, files) :: rest
      else (k, old) :: group_set rest key files
  | [] => [(key, files)]
  end.

(** [groups[key].push(file)] on an existing array. *)
Fixpoint group_push (groups : Groups) (key : string) (file : FileItem)
  : Groups :=
  match groups with
  | (k, files) :: rest =>
      if String.eqb k key then (k, (files ++ [file])%list) :: rest
      else (k, files) :: group_push rest key file
  | [] => []
  end.

(** The callback handed to [filteredFiles.reduce]. *)
Definition group_step (groups : Groups) (file : FileItem) : Groups :=
  let groups :=
    match group_get groups (session file) with
    | None => group_set groups (session file) []
    | Some _ => groups
    end in
  group_push groups (session file) file.

Definition groupedFiles (st : State) : Groups :=
  fold_left group_step (filteredFiles st) [].

(** The files of a session, in list order. *)
Definition of_session (key : string) (files : list FileItem) : list FileItem :=
  List.filter (fun file => String.eqb (session file) key) files.

End Library.

(** ** TelemetryPanel *)

Module Telemetry.
Local Open Scope Q_scope.

Record TelemetryData : Type := {
  sensorTemp : Q;
  cpuTemp : Q;
  cpuUsage : Q;
  storageUsed : Q;
  storageTotal : Q;
  batteryLevel : option Q;
  wifiSignal : Q;
  focusMetric : Q;
  exposureRemaining : option Q
}.

(** The four values drawn from [Math.random()] by one update, in call
    order. *)
Record Randoms : Type := {
  random_sensorTemp : Q;
  random_cpuTemp : Q;
  random_cpuUsage : Q;
  random_focusMetric : Q
}.

(** ToBoolean on a finite number. *)
Definition truthy (x : Q) : bool := negb (Qeq_bool x 0).

(** The reading left on the exposure countdown after [n] updates. *)
Definition countdown (st : TelemetryData) (n : nat) : Prop :=
  match exposureRemaining st with
  | Some remaining =>
      (n <= 245)%nat /\ remaining == inject_Z (245 - Z.of_nat n)
      /\ 0 <= remaining
  | None => (245 < n)%nat
  end.

Section Rounding.
(** The rounding of an exact result to a double. *)
Variable rnd : Q -> Q.

(** The literals 65.2 and 125.6 are not dyadic, so they are rounded. *)
Definition initial : TelemetryData := {|
  sensorTemp := 85 # 2;
  cpuTemp := rnd (326 # 5);
  cpuUsage := 35;
  storageUsed := rnd (628 # 5);
  storageTotal := 512;
  batteryLevel := Some 78;
  wifiSignal := 85;
  focusMetric := 892;
  exposureRemaining := Some 245
|}.

(** [prev + (Math.random() - 0.5) * scale]. *)
Definition jitter (prev random scale : Q) : Q :=
  rnd (prev + rnd (rnd (random - (1 # 2)) * scale)).

(** The state updater run by the one-second interval. *)
Definition tick (r : Randoms) (prev : TelemetryData) : TelemetryData := {|
  sensorTemp := jitter (sensorTemp prev) (random_sensorTemp r) (1 # 2);
  cpuTemp := jitter (cpuTemp prev) (random_cpuTemp r) 2;
  cpuUsage :=
    Qmax 10 (Qmin 90 (jitter (cpuUsage prev) (random_cpuUsage r) 10));
  storageUsed := storageUsed prev;
  storageTotal := storageTotal prev;
  batteryLevel := batteryLevel prev;
  wifiSignal := wifiSignal prev;
  focusMetric := jitter (focusMetric prev) (random_focusMetric r) 50;
  exposureRemaining :=
    match exposureRemaining prev with
    | Some remaining =>
        if truthy remaining then Some (Qmax 0 (rnd (remaining - 1)))
        else None
    | None => None
    end
|}.

(** The state after one update per element of [rs], oldest first. *)
Definition run (rs : list Randoms) (st : TelemetryData) : TelemetryData :=
  fold_left (fun st r => tick r st) rs st.

(** Rounding is exact on integers that a double represents. *)
Definition exact_on_integers : Prop :=
  forall (x : Q) (z : Z),
    (Z.abs z <= 2 ^ 53)%Z -> x == inject_Z z -> rnd x == inject_Z z.
End Rounding.

(** The three text colours, by severity. *)
Definition severity (colour : string) : nat :=
  if String.eqb colour "text-destructive" then 2
  else if String.eqb colour "text-yellow-500" then 1
  else 0.

(** [temp > limit]. *)
Definition above (temp limit : Q) : bool := negb (Qle_bool temp limit).

Definition getTemperatureColor (temp : Q) (isCamera : bool) : string :=
  if isCamera then
    if above temp 50 then "text-destructive"
    else if above temp 40 then "text-yellow-500"
    else "text-green-500"
  else
    if above temp 80 then "text-destructive"
    else if above temp 70 then "text-yellow-500"
    else "text-green-500".

(** [formatTime(seconds)]: minutes, a colon, and the seconds padded to two
    characters. *)
Definition formatTime (rnd : Q -> Q) (seconds : Q) : option string :=
  let mins := Qfloor (rnd (seconds / 60)) in
  let secs := JS.Qrem seconds 60 in
  match JS.Q_text (inject_Z mins), JS.Q_text secs with
  | Some m, Some s => Some (m ++ ":" ++ JS.padStart s 2 "0")%string
  | _, _ => None
  end.

(** The Exposure badge: rendered while the remaining time is truthy, with
    the remaining time as text.  For a remaining time of 0 the expression
    yields the number 0 and no badge. *)
Definition exposure_badge (rnd : Q -> Q) (st : TelemetryData)
  : option string :=
  match exposureRemaining st with
  | Some remaining =>
      if truthy remaining then formatTime rnd remaining else None
  | None => None
  end.

(** The seconds of a duration as two decimal digits. *)
Definition two_digits (secs : Z) : string :=
  (JS.integer_text (secs / 10) ++ JS.integer_text (secs mod 10))%string.

End Telemetry.

(** ** CameraPreview *)

Module Preview.
Local Open Scope Q_scope.

Record State : Type := {
  showHistogram : bool;
  showZebras : bool;
  zoom : Q
}.

Definition initial : State :=
  {| showHistogram := true; showZebras := false; zoom := 1 |}.

(** The [disabled] attributes of the two zoom buttons. *)
Definition zoomOut_disabled (st : State) : bool := Qle_bool (zoom st) (1 # 2).
Definition zoomIn_disabled (st : State) : bool := Qle_bool 3 (zoom st).

(** The four buttons of the overlay. *)
Inductive Event : Type :=
| HistogramClick
| ZebrasClick
| ZoomOutClick
| ZoomInClick.

(** A click on a disabled button is not delivered. *)
Definition handle (rnd : Q -> Q) (e : Event) (st : State) : State :=
  match e with
  | HistogramClick =>
      {| showHistogram := negb (showHistogram st);
         showZebras := showZebras st; zoom := zoom st |}
  | ZebrasClick =>
      {| showHistogram := showHistogram st;
         showZebras := negb (showZebras st); zoom := zoom st |}
  | ZoomOutClick =>
      if zoomOut_disabled st then st
      else {| showHistogram := showHistogram st; showZebras := showZebras st;
              zoom := Qmax (1 # 2) (rnd (zoom st - (1 # 4))) |}
  | ZoomInClick =>
      if zoomIn_disabled st then st
      else {| showHistogram := showHistogram st; showZebras := showZebras st;
              zoom := Qmin 3 (rnd (zoom st + (1 # 4))) |}
  end.

Definition run (rnd : Q -> Q) (events : list Event) (st : State) : State :=
  fold_left (fun st e => handle rnd e st) events st.

(** The percentage in the badge between the zoom buttons:
    [Math.round(zoom * 100)]. *)
Definition zoom_percent (rnd : Q -> Q) (st : State) : Z :=
  JS.round (rnd (zoom st * 100)).

End Preview.

(** ** Index and NavigationBar *)

Module App.

Record Tab : Type := { tab_id : string; label : string }.

(** The [tabs] array of the navigation bar. *)
Definition tabs : list Tab := [
  {| tab_id := "preview"; label := "Preview" |};
  {| tab_id := "sequence"; label := "Sequence" |};
  {| tab_id := "library"; label := "Library" |};
  {| tab_id := "settings"; label := "Settings" |} ].

(** [captureTimeouts] counts the callbacks scheduled by [setTimeout] that
    have not run yet. *)
Record State : Type := {
  activeTab : string;
  nightMode : bool;
  isRecording : bool;
  isSequenceRunning : bool;
  isCapturing : bool;
  captureTimeouts : nat
}.

Definition initial : State :=
  {| activeTab := "preview"; nightMode := false; isRecording := false;
     isSequenceRunning := false; isCapturing := false;
     captureTimeouts := 0 |}.

Definition handleStartCapture (st : State) : State :=
  {| activeTab := activeTab st; nightMode := nightMode st;
     isRecording := isRecording st;
     isSequenceRunning := isSequenceRunning st;
     isCapturing := true;
     captureTimeouts := S (captureTimeouts st) |}.

Definition handleStopCapture (st : State) : State :=
  {| activeTab := activeTab st; nightMode := nightMode st;
     isRecording := false;
     isSequenceRunning := false;
     isCapturing := isCapturing st;
     captureTimeouts := captureTimeouts st |}.

(** The clicks the navigation bar and the settings tab deliver, and the
    expiry of a capture timeout.  The Record button has no handler. *)
Inductive Event : Type :=
| TabClick (index : nat)
| NightModeSwitch (checked : bool)
| CaptureClick
| StopSequenceClick
| CaptureTimeout.

(** The Capture button is rendered while no sequence runs and the Stop
    Sequence button while one does; a button that is not rendered, a tab
    that does not exist and a timeout that was not scheduled deliver
    nothing. *)
Definition handle (e : Event) (st : State) : State :=
  match e with
  | TabClick index =>
      match tabs !! index with
      | Some tab =>
          {| activeTab := tab_id tab; nightMode := nightMode st;
             isRecording := isRecording st;
             isSequenceRunning := isSequenceRunning st;
             isCapturing := isCapturing st;
             captureTimeouts := captureTimeouts st |}
      | None => st
      end
  | NightModeSwitch checked =>
      {| activeTab := activeTab st; nightMode := checked;
         isRecording := isRecording st;
         isSequenceRunning := isSequenceRunning st;
         isCapturing := isCapturing st;
         captureTimeouts := captureTimeouts st |}
  | CaptureClick =>
      if isSequenceRunning st then st else handleStartCapture st
  | StopSequenceClick =>
      if isSequenceRunning st then handleStopCapture st else st
  | CaptureTimeout =>
      match captureTimeouts st with
      | S pending =>
          {| activeTab := activeTab st; nightMode := nightMode st;
             isRecording := isRecording st;
             isSequenceRunning := isSequenceRunning st;
             isCapturing := false;
             captureTimeouts := pending |}
      | O => st
      end
  end.

Definition run (events : list Event) (st : State) : State :=
  fold_left (fun st e => handle e st) events st.

(** The panes of the main content area, each rendered when its name is the
    active tab. *)
Definition panes : list string := ["preview"; "sequence"; "library"; "settings"].

Definition rendered_panes (st : State) : list string :=
  List.filter (String.eqb (activeTab st)) panes.

End App.

(** ** Facts about the built-ins *)

Module JSFacts.
Import JS.

Lemma round53_small (m : Z) : 0 <= m < 2 ^ 53 -> round53 m = m.
Proof.
  intros [Hlo Hhi]. unfold round53.
  destruct (Z.eq_dec m 0) as [-> | Hne]; [reflexivity |].
  assert (Z.log2 m < 53) by (apply Z.log2_lt_pow2; lia).
  destruct (Z.leb_spec (Z.log2 m - 52) 0); [reflexivity | lia].
Qed.

(** Integers below 2^53 in magnitude are Number values. *)
Lemma of_Z_exact (z : Z) : Z.abs z < 2 ^ 53 -> of_Z z = Int z.
Proof.
  intros Hz. unfold of_Z.
  rewrite round53_small by (split; [apply Z.abs_nonneg | exact Hz]).
  assert (2 ^ 53 < 2 ^ 1024) by (apply Z.pow_lt_mono_r; lia).
  destruct (Z.leb_spec (2 ^ 1024) (Z.abs z)); [lia |].
  f_equal. rewrite Z.mul_comm. apply Z.abs_sgn.
Qed.

Lemma add_exact (x y : Z) :
  Z.abs (x + y) < 2 ^ 53 -> add (Int x) (Int y) = Int (x + y).
Proof. intros H. simpl. apply of_Z_exact, H. Qed.

Lemma mul_exact (x y : Z) :
  Z.abs (x * y) < 2 ^ 53 -> mul (Int x) (Int y) = Int (x * y).
Proof. intros H. simpl. apply of_Z_exact, H. Qed.

Example parseInt_decimal : parseInt "300" = Int 300.
Proof. vm_compute. reflexivity. Qed.

Example parseInt_fraction : parseInt "  -12.5" = Int (-12).
Proof. vm_compute. reflexivity. Qed.

Example parseInt_hex : parseInt "0x1f" = Int 31.
Proof. vm_compute. reflexivity. Qed.

Example parseInt_empty : parseInt "" = NaN.
Proof. vm_compute. reflexivity. Qed.

Example parseInt_tie_to_even :
  parseInt "9007199254740993" = Int 9007199254740992
  /\ parseInt "9007199254740995" = Int 9007199254740996.
Proof. split; vm_compute; reflexivity. Qed.

Example replace_first_only :
  replace (String dquote (String "3" (String dquote "0")))
          (String dquote "") ""
  = String "3" (String dquote "0").
Proof. vm_compute. reflexivity. Qed.

End JSFacts.

(** ** SequencePlanner: reachable states *)

Module PlannerFacts.
Import JS Planner.
Local Open Scope list_scope.

Lemma planner_run_snoc (events : list Event) (e : Event) (st : State) :
  run (events ++ [e]) st = handle e (run events st).
Proof. unfold run. rewrite fold_left_app. reflexivity. Qed.

Lemma addSequence_sequences (now : N) (st : State) :
  exists item, sequences (addSequence now st) = sequences st ++ [item]
               /\ fresh (newSequence st) item.
Proof. eexists. split; [reflexivity |]. repeat split. Qed.

(** A handler either leaves the items alone or appends one fresh item. *)
Lemma handle_sequences (e : Event) (st : State) :
  sequences (handle e st) = sequences st
  \/ exists item, sequences (handle e st) = sequences st ++ [item]
                  /\ fresh (newSequence st) item.
Proof.
  destruct e; simpl; auto.
  right. apply addSequence_sequences.
Qed.

(** No handler touches an item that is already in the list. *)
Lemma handle_keeps_items (e : Event) (st : State) (i : nat)
      (item : SequenceItem) :
  sequences st !! i = Some item -> sequences (handle e st) !! i = Some item.
Proof.
  intros Hi.
  destruct (handle_sequences e st) as [-> | (x & -> & _)]; [exact Hi |].
  apply lookup_app_l_Some, Hi.
Qed.

(** Items of a reachable state: the two initial ones, or pending items with
    nothing completed. *)
Lemma run_items (events : list Event) (item : SequenceItem) :
  In item (sequences (run events initial)) ->
  In item (sequences initial)
  \/ (status item = Pending /\ completed item = Int 0).
Proof.
  revert item. induction events as [| e events IH] using rev_ind;
    intros item Hin.
  - left. exact Hin.
  - rewrite planner_run_snoc in Hin.
    destruct (handle_sequences e (run events initial))
      as [Heq | (x & Heq & Hx)]; rewrite Heq in Hin.
    + apply IH, Hin.
    + apply in_app_or in Hin. destruct Hin as [Hin | [<- | []]].
      * apply IH, Hin.
      * right. split; apply Hx.
Qed.

Lemma running_count_app (l1 l2 : list SequenceItem) :
  running_count (l1 ++ l2) = (running_count l1 + running_count l2)%nat.
Proof.
  unfold running_count. rewrite List.filter_app, length_app. reflexivity.
Qed.

Lemma handle_running_count (e : Event) (st : State) :
  running_count (sequences (handle e st)) = running_count (sequences st).
Proof.
  destruct (handle_sequences e st) as [-> | (x & -> & Hx & _)];
    [reflexivity |].
  rewrite running_count_app. unfold running_count at 2. simpl.
  rewrite Hx. simpl. lia.
Qed.

(** C1. At most one sequence item is running: the initial state holds at
    most one running item, every handler keeps the number of running items,
    and so every reachable state holds at most one. *)
Theorem at_most_one_running :
  (running_count (sequences initial) <= 1)%nat
  /\ (forall e st, running_count (sequences (handle e st))
                   = running_count (sequences st))
  /\ (forall events,
        (running_count (sequences (run events initial)) <= 1)%nat).
Proof.
  split; [vm_compute; lia |]. split; [exact handle_running_count |].
  induction events as [| e events IH] using rev_ind.
  - vm_compute. lia.
  - rewrite planner_run_snoc, handle_running_count. exact IH.
Qed.

(** ** Status and progress of the items *)

Lemma strict_eq_zero_l (a : number) :
  strict_eq (Int 0) a = strict_eq a (Int 0).
Proof. destruct a as [| s | z]; simpl; try reflexivity; apply Z.eqb_sym. Qed.

(** The item appended once 0 has been typed in the Frames field. *)
Lemma zero_frames_reachable :
  In {| id := "0"; type := subs; frames := Int 0; exposure := exposure_300;
        gain := Int 1600; completed := Int 0; status := Pending;
        interval := Some (Int 5) |}
     (sequences (run [FramesChange "0"; AddClick 0] initial)).
Proof. vm_compute. right. right. left. reflexivity. Qed.

(** C2, as stated, fails: with 0 typed in the Frames field, [addSequence]
    appends an item whose completed count equals its frames count while its
    status is pending. *)
Lemma completed_iff_fails_for_zero_frames :
  ~ (forall events item,
        In item (sequences (run events initial)) ->
        status item = Completed
        <-> strict_eq (completed item) (frames item) = true).
Proof.
  intros H.
  destruct (H _ _ zero_frames_reachable) as [_ Hback].
  discriminate (Hback eq_refl).
Qed.

(** C2, amended. For every item of every reachable state whose frames count
    is not 0, the status is completed if and only if the completed count
    equals the frames count; an item whose frames count is 0 is pending
    with a completed count equal to its frames count. *)
Theorem completed_iff_unless_zero_frames (events : list Event)
        (item : SequenceItem) :
  In item (sequences (run events initial)) ->
  (strict_eq (frames item) (Int 0) = false ->
   status item = Completed
   <-> strict_eq (completed item) (frames item) = true)
  /\ (strict_eq (frames item) (Int 0) = true ->
      status item = Pending
      /\ strict_eq (completed item) (frames item) = true).
Proof.
  intros Hin. destruct (run_items _ _ Hin) as [Hinit | [Hst Hdone]].
  - simpl in Hinit. destruct Hinit as [<- | [<- | []]]; simpl;
      (split; [intros _; split; discriminate | discriminate]).
  - rewrite Hst, Hdone, strict_eq_zero_l. split.
    + intros ->. split; discriminate.
    + intros ->. split; reflexivity.
Qed.

Lemma completed_iff_unless_zero_frames_witness :
  let item := {| id := "5"; type := subs; frames := Int 7;
                 exposure := exposure_300; gain := Int 1600;
                 completed := Int 0; status := Pending;
                 interval := Some (Int 5) |} in
  In item (sequences (run [FramesChange "7"; AddClick 5] initial))
  /\ (status item = Completed
      <-> strict_eq (completed item) (frames item) = true).
Proof.
  intros item.
  assert (Hin : In item (sequences (run [FramesChange "7"; AddClick 5]
                                        initial)))
    by (vm_compute; right; right; left; reflexivity).
  split; [exact Hin |].
  apply (completed_iff_unless_zero_frames _ _ Hin). reflexivity.
Defined.

(** C3, as stated, fails: the status type has no value named failed (nor
    skipped), so not each of the six names is a representable status. *)
Lemma failed_is_not_a_status :
  ~ ((forall st : Status, In (status_text st) spec_status_names)
     /\ (forall s, In s spec_status_names ->
                   exists st : Status, status_text st = s)).
Proof.
  intros [_ H]. destruct (H "failed") as [st Hst].
  - simpl. tauto.
  - destruct st; discriminate Hst.
Qed.

(** C3, amended. The status of a sequence item ranges over exactly the four
    values pending, running, completed and paused. *)
Theorem status_ranges_over_four (s : string) :
  (exists st : Status, status_text st = s) <-> In s status_names.
Proof.
  split.
  - intros [st <-]. destruct st; simpl; tauto.
  - simpl. intros [<- | [<- | [<- | [<- | []]]]];
      [exists Pending | exists Running | exists Completed | exists Paused];
      reflexivity.
Qed.

(** ** Adding an item *)

(** C4, as stated, fails: in the initial state the first item is running,
    and [addSequence] still changes the list. *)
Lemma add_while_running_not_rejected :
  ~ (forall now st,
        (exists item, In item (sequences st) /\ status item = Running) ->
        sequences (addSequence now st) = sequences st).
Proof.
  intros H. specialize (H 0%N initial).
  assert (Hlen : List.length (sequences (addSequence 0 initial))
                 = List.length (sequences initial)).
  { f_equal. apply H. eexists. split; [left; reflexivity | reflexivity]. }
  discriminate Hlen.
Qed.

(** C4, amended. In every planner state, whether or not an item is running,
    [addSequence] appends the new group after all existing items without
    modifying them: the list grows by one, every existing position keeps
    its item, the new last item is a pending one built from the form, and
    the form is left as it was. *)
Theorem addSequence_always_appends (now : N) (st : State) :
  List.length (sequences (addSequence now st))
  = S (List.length (sequences st))
  /\ (forall i item, sequences st !! i = Some item ->
                     sequences (addSequence now st) !! i = Some item)
  /\ (exists item,
        sequences (addSequence now st) !! List.length (sequences st)
        = Some item
        /\ fresh (newSequence st) item)
  /\ newSequence (addSequence now st) = newSequence st.
Proof.
  destruct (addSequence_sequences now st) as (x & Heq & Hx).
  rewrite Heq. repeat split.
  - rewrite length_app. simpl. lia.
  - intros i item Hi. apply lookup_app_l_Some, Hi.
  - exists x. split; [| exact Hx].
    rewrite lookup_app_r by reflexivity.
    rewrite Nat.sub_diag. reflexivity.
Qed.

(** C5, as stated, fails: with -5 typed in the Frames field, [addSequence]
    appends an item whose completed count 0 lies above its frames count. *)
Lemma completed_above_negative_frames :
  ~ (forall events item,
        In item (sequences (run events initial)) ->
        le (Int 0) (completed item) = true
        /\ le (completed item) (frames item) = true).
Proof.
  intros H.
  destruct (H [FramesChange "-5"; AddClick 0]
              {| id := "0"; type := subs; frames := Int (-5);
                 exposure := exposure_300; gain := Int 1600;
                 completed := Int 0; status := Pending;
                 interval := Some (Int 5) |}) as [_ Hle].
  - vm_compute. right. right. left. reflexivity.
  - discriminate Hle.
Qed.

(** C5, amended. For every item of every reachable state the completed
    count is a non-negative integer, and it is at most the frames count
    whenever the frames count is not negative (and not NaN); no handler
    changes the item at an existing position, so no completed count ever
    decreases or increases. *)
Theorem completed_within_nonnegative_frames (events : list Event)
        (item : SequenceItem) :
  In item (sequences (run events initial)) ->
  (exists c, completed item = Int c /\ 0 <= c)
  /\ (le (Int 0) (frames item) = true ->
      le (completed item) (frames item) = true)
  /\ (forall e i,
        sequences (run events initial) !! i = Some item ->
        sequences (handle e (run events initial)) !! i = Some item).
Proof.
  intros Hin. split; [| split].
  - destruct (run_items _ _ Hin) as [Hinit | [_ ->]].
    + simpl in Hinit. destruct Hinit as [<- | [<- | []]]; simpl;
        eexists; (split; [reflexivity | lia]).
    + exists 0. split; [reflexivity | lia].
  - destruct (run_items _ _ Hin) as [Hinit | [_ ->]].
    + simpl in Hinit. destruct Hinit as [<- | [<- | []]]; reflexivity.
    + intros Hle. exact Hle.
  - intros e i. apply handle_keeps_items.
Qed.

Lemma completed_within_nonnegative_frames_witness :
  let item := {| id := "2"; type := darks; frames := Int 10;
                 exposure := exposure_300; gain := Int 1600;
                 completed := Int 0; status := Pending;
                 interval := None |} in
  In item (sequences (run [FramesChange "-5"; AddClick 0] initial))
  /\ le (completed item) (frames item) = true.
Proof.
  intros item.
  assert (Hin : In item (sequences (run [FramesChange "-5"; AddClick 0]
                                        initial)))
    by (vm_compute; right; left; reflexivity).
  split; [exact Hin |].
  apply (completed_within_nonnegative_frames _ _ Hin). reflexivity.
Defined.

(** ** The total duration *)

Lemma magnitude_nonneg (zs : list Z) : 0 <= magnitude zs.
Proof.
  induction zs as [| z zs IH]; [reflexivity |].
  cbn [magnitude foldr]. fold (magnitude zs). lia.
Qed.

Lemma totalDuration_exact_from (items : list SequenceItem) (zs : list Z) :
  Forall2 (fun seq z => planned_seconds seq = Some z) items zs ->
  forall acc,
    Z.abs acc + magnitude zs < 2 ^ 53 ->
    fold_left
      (fun total seq => add total (mul (frames seq) (exposureSeconds seq)))
      items (Int acc)
    = Int (acc + total zs).
Proof.
  induction 1 as [| seq z items zs Hz _ IH]; intros acc Hacc.
  - simpl. f_equal. lia.
  - unfold planned_seconds in Hz. cbn [fold_left].
    destruct (frames seq) as [| | f]; try discriminate Hz.
    destruct (exposureSeconds seq) as [| | e]; try discriminate Hz.
    injection Hz as <-.
    cbn [magnitude total foldr] in Hacc |- *.
    fold (magnitude zs) in Hacc. fold (total zs).
    pose proof (magnitude_nonneg zs) as Hmag.
    rewrite JSFacts.mul_exact by lia.
    rewrite JSFacts.add_exact by lia.
    rewrite IH by lia. f_equal. lia.
Qed.

Lemma totalDuration_same_plan (items items' : list SequenceItem) :
  Forall2 same_plan items items' ->
  forall acc,
    fold_left
      (fun total seq => add total (mul (frames seq) (exposureSeconds seq)))
      items acc
    = fold_left
        (fun total seq => add total (mul (frames seq) (exposureSeconds seq)))
        items' acc.
Proof.
  induction 1 as [| a b items items' [Hf He] _ IH]; intros acc;
    [reflexivity |].
  cbn [fold_left].
  replace (exposureSeconds b) with (exposureSeconds a)
    by (unfold exposureSeconds; rewrite He; reflexivity).
  rewrite <- Hf. apply IH.
Qed.

(** C6, as stated, fails: for the two initial items the code computes
    30 * 300 + 10 * 300 = 12000, while the remaining frames of the pending
    and running groups amount to 18 * 300 + 10 * 300 = 8400. *)
Lemma total_is_not_remaining :
  ~ (forall items, totalDuration items = spec_remainingSeconds items).
Proof.
  intros H. specialize (H (sequences initial)).
  vm_compute in H. discriminate H.
Qed.

(** C6, amended. The computed total duration is the sum over all the items,
    whatever their status and their completed count, of the frames count
    multiplied by the exposure in seconds: it equals the exact sum of the
    products as long as the products are integers whose magnitudes add up
    to less than 2^53, and it does not change when status and completed
    counts do. *)
Theorem totalDuration_sums_all_items (items : list SequenceItem)
        (zs : list Z) :
  Forall2 (fun seq z => planned_seconds seq = Some z) items zs ->
  magnitude zs < 2 ^ 53 ->
  totalDuration items = Int (total zs)
  /\ (forall items', Forall2 same_plan items items' ->
                     totalDuration items' = totalDuration items).
Proof.
  intros Hzs Hsafe. split.
  - unfold totalDuration.
    rewrite (totalDuration_exact_from _ _ Hzs 0) by (simpl; lia).
    reflexivity.
  - intros items' Hsame. symmetry.
    apply totalDuration_same_plan, Hsame.
Qed.

Lemma totalDuration_sums_all_items_witness :
  Forall2 (fun seq z => planned_seconds seq = Some z)
          (sequences initial) [9000; 3000]
  /\ magnitude [9000; 3000] < 2 ^ 53
  /\ totalDuration (sequences initial) = Int 12000.
Proof.
  assert (Hzs : Forall2 (fun seq z => planned_seconds seq = Some z)
                        (sequences initial) [9000; 3000])
    by (repeat constructor).
  assert (Hsafe : magnitude [9000; 3000] < 2 ^ 53) by reflexivity.
  split; [exact Hzs |]. split; [exact Hsafe |].
  exact (proj1 (totalDuration_sums_all_items _ _ Hzs Hsafe)).
Defined.

(** ** The frames count *)

(** C7, as stated, fails: 0 is accepted by the Frames field, and the item
    then appended has a frames count of 0, which is not positive. *)
Lemma zero_frames_accepted :
  ~ (forall value now item,
        last (sequences (run [FramesChange value; AddClick now] initial))
        = Some item ->
        positive_integer (frames item) = true).
Proof.
  intros H.
  specialize (H "0" 0%N _ eq_refl). discriminate H.
Qed.

(** Only the Frames field changes the frames count of the form. *)
Lemma handle_new_frames (e : Event) (st : State) :
  new_frames (newSequence (handle e st))
  = match e with
    | FramesChange value => parseInt value
    | _ => new_frames (newSequence st)
    end.
Proof. destruct e; reflexivity. Qed.

(** The form holds the frames count of the text last typed. *)
Lemma run_new_frames (events : list Event) (st : State) :
  new_frames (newSequence (run events st)) = typed_frames events st.
Proof.
  unfold typed_frames, frames_texts.
  induction events as [| e events IH] using rev_ind; [reflexivity |].
  rewrite planner_run_snoc, handle_new_frames, omap_app.
  destruct e; cbn [omap]; rewrite ?app_nil_r; try exact IH.
  cbn. rewrite last_snoc. reflexivity.
Qed.

(** C7, amended. The group appended by [addSequence] has the frames value
    held by the form, which is [parseInt] of the text last typed in the
    Frames field, whatever was done in the other fields and however many
    groups were added since (the initial 30 when nothing was typed), so it
    is a positive integer exactly when that text parses to one; no handler
    changes the frames count at an existing position. *)
Theorem frames_fixed_at_creation :
  (forall now st item,
      last (sequences (addSequence now st)) = Some item ->
      frames item = new_frames (newSequence st))
  /\ (forall value now st item,
        last (sequences (run [FramesChange value; AddClick now] st))
        = Some item ->
        frames item = parseInt value)
  /\ (forall e st i item,
        sequences st !! i = Some item ->
        exists item', sequences (handle e st) !! i = Some item'
                      /\ frames item' = frames item)
  /\ (forall events now st item,
        last (sequences (run (events ++ [AddClick now]) st)) = Some item ->
        frames item = typed_frames events st
        /\ (positive_integer (frames item) = true
            <-> positive_integer (typed_frames events st) = true))
  /\ (forall e st,
        new_frames (newSequence (handle e st))
        = match e with
          | FramesChange value => parseInt value
          | _ => new_frames (newSequence st)
          end).
Proof.
  split; [| split; [| split; [| split]]].
  - intros now st item. simpl. rewrite last_snoc. intros [= <-]. reflexivity.
  - intros value now st item. simpl. rewrite last_snoc.
    intros [= <-]. reflexivity.
  - intros e st i item Hi. exists item.
    split; [apply handle_keeps_items, Hi | reflexivity].
  - intros events now st item. rewrite planner_run_snoc.
    cbn [handle]. unfold addSequence. cbn [sequences].
    rewrite last_snoc. intros [= <-]. cbn [frames].
    rewrite run_new_frames. split; reflexivity.
  - exact handle_new_frames.
Qed.

Lemma frames_fixed_at_creation_witness :
  let item := {| id := "9"; type := subs; frames := Int 45;
                 exposure := exposure_300; gain := Int 1600;
                 completed := Int 0; status := Pending;
                 interval := Some (Int 5) |} in
  last (sequences (run [FramesChange "45"; AddClick 9] initial)) = Some item
  /\ frames item = parseInt "45".
Proof.
  intros item.
  assert (Hlast : last (sequences (run [FramesChange "45"; AddClick 9]
                                       initial)) = Some item)
    by reflexivity.
  split; [exact Hlast |].
  apply (proj1 (proj2 frames_fixed_at_creation) _ _ _ _ Hlast).
Defined.

End PlannerFacts.

(** ** FileLibrary: the displayed files *)

Module LibraryFacts.
Import JS Library.
Local Open Scope list_scope.

Lemma filter_sublist {A : Type} (f : A -> bool) (l : list A) :
  List.filter f l `sublist_of` l.
Proof.
  induction l as [| x l IH]; simpl.
  - constructor.
  - destruct (f x); [apply sublist_skip | apply sublist_cons]; exact IH.
Qed.

(** *** Substring search *)

Lemma prefix_spec (t s : string) :
  String.prefix t s = true <-> exists after, s = (t ++ after)%string.
Proof.
  revert t. induction s as [| b s IH]; intros [| a t]; simpl.
  - split; [exists ""%string; reflexivity | reflexivity].
  - split; [discriminate | intros [after Hafter]; discriminate Hafter].
  - split; [eexists; reflexivity | reflexivity].
  - destruct (ascii_dec a b) as [-> | Hne].
    + rewrite IH. split; intros [after Hafter]; exists after.
      * rewrite Hafter. reflexivity.
      * injection Hafter as ->. reflexivity.
    + split; [discriminate |].
      intros [after Hafter]. injection Hafter as Hab _. congruence.
Qed.

Lemma includes_unfold (s t : string) :
  includes s t
  = if String.prefix t s then true
    else match s with
         | String _ rest => includes rest t
         | EmptyString => false
         end.
Proof. destruct s; reflexivity. Qed.

Lemma includes_spec (s t : string) :
  includes s t = true
  <-> exists before after, s = (before ++ t ++ after)%string.
Proof.
  induction s as [| c s IH]; rewrite includes_unfold;
    destruct (String.prefix t _) eqn:Hp.
  - apply prefix_spec in Hp as [after Hafter].
    split; [intros _ | reflexivity].
    exists ""%string, after. exact Hafter.
  - split; [discriminate |]. intros ([| c before] & after & Heq).
    + assert (String.prefix t "" = true) as Hp'
          by (apply prefix_spec; exists after; exact Heq).
      congruence.
    + discriminate Heq.
  - apply prefix_spec in Hp as [after Hafter].
    split; [intros _ | reflexivity].
    exists ""%string, after. exact Hafter.
  - rewrite IH. split.
    + intros (before & after & ->). exists (String c before), after.
      reflexivity.
    + intros ([| c' before] & after & Heq).
      * assert (String.prefix t (String c s) = true) as Hp'
            by (apply prefix_spec; exists after; exact Heq).
        congruence.
      * injection Heq as -> ->. exists before, after. reflexivity.
Qed.

Lemma toLowerCase_app (a b : string) :
  toLowerCase (a ++ b)%string = (toLowerCase a ++ toLowerCase b)%string.
Proof. induction a as [| c a IH]; simpl; [| rewrite IH]; reflexivity. Qed.

(** A split of the lower-case form comes from a split of the string. *)
Lemma toLowerCase_split (s a b : string) :
  toLowerCase s = (a ++ b)%string ->
  exists s1 s2, s = (s1 ++ s2)%string
                /\ toLowerCase s1 = a /\ toLowerCase s2 = b.
Proof.
  revert s. induction a as [| c a IH]; intros s Hs.
  - exists ""%string, s. auto.
  - destruct s as [| d s]; [discriminate Hs |].
    simpl in Hs. injection Hs as Hc Hrest.
    destruct (IH _ Hrest) as (s1 & s2 & -> & <- & <-).
    exists (String d s1), s2. simpl. rewrite Hc. auto.
Qed.

(** The search test of the filter is containment up to letter case. *)
Lemma search_spec (s t : string) :
  includes (toLowerCase s) (toLowerCase t) = true
  <-> contains_ignoring_case s t.
Proof.
  rewrite includes_spec. unfold contains_ignoring_case. split.
  - intros (before & after & Heq).
    apply toLowerCase_split in Heq as (s1 & rest & -> & <- & Hrest).
    apply toLowerCase_split in Hrest as (s2 & s3 & -> & Hmid & <-).
    exists s1, s2, s3. auto.
  - intros (before & middle & after & -> & Hmid).
    exists (toLowerCase before), (toLowerCase after).
    rewrite !toLowerCase_app, Hmid. reflexivity.
Qed.

Lemma contains_empty (s : string) : contains_ignoring_case s "".
Proof. exists ""%string, ""%string, s. auto. Qed.

Lemma nonempty_false (s : string) : nonempty s = false -> s = ""%string.
Proof.
  unfold nonempty. destruct (String.eqb_spec s ""); [auto | discriminate].
Qed.

(** *** The category test *)

Lemma category_spec (c : Category) (term : string) (file : FileItem) :
  keep (category_value c) term file = matches_search term file
  /\ in_category c (type file)
  \/ keep (category_value c) term file = false
     /\ ~ in_category c (type file).
Proof.
  unfold keep.
  destruct c, (type file); simpl;
    solve [ left; split; [reflexivity | auto]
          | right; split; [reflexivity |];
            intros H; repeat destruct H as [H | H]; discriminate H ].
Qed.

Lemma keep_spec (c : Category) (term : string) (file : FileItem) :
  keep (category_value c) term file = true
  <-> in_category c (type file)
      /\ contains_ignoring_case (name file) term.
Proof.
  destruct (category_spec c term file) as [[-> Hcat] | [-> Hcat]].
  - unfold matches_search. destruct (nonempty term) eqn:Hne; simpl.
    + rewrite <- search_spec.
      destruct (includes _ _); simpl; split; auto.
      intros [_ H]; discriminate H.
    + apply nonempty_false in Hne as ->.
      split; [split; [exact Hcat | apply contains_empty] | reflexivity].
  - split; [discriminate | intros [H _]; contradiction].
Qed.

(** A filter value outside the select's entries filters on the search term
    only. *)
Lemma keep_unlisted_filter (filterType term : string) (file : FileItem) :
  filterType <> "image"%string -> filterType <> "video"%string ->
  filterType <> "raw"%string ->
  keep filterType term file = matches_search term file.
Proof.
  intros Himage Hvideo Hraw. unfold keep.
  destruct (String.eqb_spec filterType "image"); [contradiction |].
  destruct (String.eqb_spec filterType "video"); [contradiction |].
  destruct (String.eqb_spec filterType "raw"); [contradiction |].
  simpl. destruct (negb _); reflexivity.
Qed.

(** C8. The file browser shows only mock files: the mock list holds five
    files and does not depend on the state; for every search term and
    filter selection the displayed list is an order-preserving sublist of
    it, so each displayed file is one of the five, unchanged; the sort and
    view-mode handlers leave the displayed list as it is, and the search
    and filter handlers only select among the mock files. *)
Theorem displayed_is_sublist_of_mock_files :
  List.length mockFiles = 5%nat
  /\ (forall st,
        displayed st `sublist_of` mockFiles
        /\ forall file, In file (displayed st) -> In file mockFiles)
  /\ (forall value st,
        displayed (handle (SortChange value) st) = displayed st)
  /\ (forall mode st,
        displayed (handle (ViewModeClick mode) st) = displayed st)
  /\ (forall value st,
        displayed (handle (SearchChange value) st)
        = List.filter (keep (filterType st) value) mockFiles)
  /\ (forall value st,
        displayed (handle (FilterChange value) st)
        = List.filter (keep value (searchTerm st)) mockFiles).
Proof.
  split; [reflexivity |]. split.
  - intros st.
    assert (Hsub : displayed st `sublist_of` mockFiles).
    { unfold displayed, filteredFiles.
      destruct (viewMode _); apply filter_sublist. }
    split; [exact Hsub |].
    intros file Hin. apply list_elem_of_In. apply list_elem_of_In in Hin.
    eapply sublist_subseteq; [exact Hsub | exact Hin].
  - repeat split; intros x st; unfold displayed, filteredFiles;
      simpl; destruct x; try destruct (viewMode st); reflexivity.
Qed.

(** *** Letter case *)

Lemma code_bounds (c : ascii) : 0 <= code c < 256.
Proof.
  unfold code. pose proof (N_ascii_bounded c) as Hc. lia.
Qed.

Lemma code_inj (a b : ascii) : code a = code b -> a = b.
Proof.
  unfold code. intros Hab. apply N2Z.inj in Hab.
  rewrite <- (ascii_N_embedding a), <- (ascii_N_embedding b), Hab.
  reflexivity.
Qed.

Lemma capital_dec (n : Z) : {capital n} + {~ capital n}.
Proof.
  unfold capital.
  destruct (Z_le_dec 65 n), (Z_le_dec n 90), (Z_le_dec 192 n),
    (Z_le_dec n 222), (Z.eq_dec n 215);
    try (left; lia); right; lia.
Qed.

(** [toLowerCase] moves a capital letter 32 code points up. *)
Lemma lower_char_capital (c : ascii) :
  capital (code c) -> code (lower_char c) = code c + 32.
Proof.
  intros Hcap. pose proof (code_bounds c) as Hc. unfold lower_char.
  assert (Htest : ((65 <=? code c) && (code c <=? 90))
                  || ((192 <=? code c) && (code c <=? 222)
                      && negb (code c =? 215)) = true).
  { unfold capital in Hcap.
    destruct (Z.leb_spec 65 (code c)), (Z.leb_spec (code c) 90),
      (Z.leb_spec 192 (code c)), (Z.leb_spec (code c) 222),
      (Z.eqb_spec (code c) 215); simpl; try reflexivity; lia. }
  rewrite Htest. unfold code at 1.
  rewrite N_ascii_embedding by (unfold capital in Hcap; lia).
  unfold capital in Hcap. lia.
Qed.

(** [toLowerCase] leaves every other character alone. *)
Lemma lower_char_other (c : ascii) : ~ capital (code c) -> lower_char c = c.
Proof.
  intros Hcap. unfold lower_char.
  assert (Htest : ((65 <=? code c) && (code c <=? 90))
                  || ((192 <=? code c) && (code c <=? 222)
                      && negb (code c =? 215)) = false).
  { unfold capital in Hcap.
    destruct (Z.leb_spec 65 (code c)), (Z.leb_spec (code c) 90),
      (Z.leb_spec 192 (code c)), (Z.leb_spec (code c) 222),
      (Z.eqb_spec (code c) 215); simpl; try reflexivity; lia. }
  rewrite Htest. reflexivity.
Qed.

(** Two characters have the same lower-case form exactly when they are the
    same letter. *)
Lemma same_letter_lower (a b : ascii) :
  same_letter a b <-> lower_char a = lower_char b.
Proof.
  unfold same_letter, small_of. split.
  - intros [-> | [[Hcap Hab] | [Hcap Hba]]]; [reflexivity | |];
      apply code_inj.
    + rewrite (lower_char_capital b Hcap).
      rewrite lower_char_other; [exact Hab |].
      unfold capital in *. lia.
    + rewrite (lower_char_capital a Hcap).
      rewrite (lower_char_other b); [symmetry; exact Hba |].
      unfold capital in *. lia.
  - intros Hlower. apply (f_equal code) in Hlower.
    destruct (capital_dec (code a)) as [Ha | Ha],
             (capital_dec (code b)) as [Hb | Hb].
    + rewrite (lower_char_capital a Ha), (lower_char_capital b Hb) in Hlower.
      left. apply code_inj. lia.
    + rewrite (lower_char_capital a Ha), (lower_char_other b Hb) in Hlower.
      right. right. split; [exact Ha | lia].
    + rewrite (lower_char_other a Ha), (lower_char_capital b Hb) in Hlower.
      right. left. split; [exact Hb | lia].
    + rewrite (lower_char_other a Ha), (lower_char_other b Hb) in Hlower.
      left. apply code_inj. exact Hlower.
Qed.

Lemma equal_up_to_case_lower (s t : string) :
  equal_up_to_case s t <-> toLowerCase s = toLowerCase t.
Proof.
  revert t. induction s as [| a s IH]; intros [| b t]; simpl.
  - tauto.
  - split; [tauto | discriminate].
  - split; [tauto | discriminate].
  - rewrite same_letter_lower, IH. split.
    + intros [-> ->]. reflexivity.
    + intros [= Hc Hs]. split; assumption.
Qed.

(** The search of the code, which goes through [toLowerCase], is
    case-insensitive containment. *)
Lemma contains_up_to_case_spec (s t : string) :
  contains_up_to_case s t <-> contains_ignoring_case s t.
Proof.
  unfold contains_up_to_case, contains_ignoring_case.
  split; intros (before & middle & after & Hs & Hm);
    exists before, middle, after; (split; [exact Hs |]);
    apply equal_up_to_case_lower; exact Hm.
Qed.

(** C10. For each of the four filter categories and every search term, the
    filtered list holds precisely the mock files whose type is in the
    category and whose name contains the search term case-insensitively
    (some substring of the name equals the term character by character up
    to letter case), in the order of the mock list. *)
Theorem filteredFiles_is_category_and_search (c : Category)
        (term sort : string) (view : ViewMode) :
  let st := {| viewMode := view; sortBy := sort;
               filterType := category_value c; searchTerm := term |} in
  (forall file,
      In file (filteredFiles st)
      <-> In file mockFiles
          /\ in_category c (type file)
          /\ contains_up_to_case (name file) term)
  /\ filteredFiles st `sublist_of` mockFiles.
Proof.
  intros st. split; [| apply filter_sublist].
  intros file. unfold filteredFiles. rewrite List.filter_In. simpl.
  rewrite keep_spec, contains_up_to_case_spec. reflexivity.
Qed.

(** The search finds a name written in capitals from a term in small
    letters, and the other way round. *)
Example search_folds_case :
  map id (filteredFiles (run [SearchChange "m31"] initial))
  = ["1"%string; "2"%string]
  /\ map id (filteredFiles (run [SearchChange "DARK_001.DNG"] initial))
     = ["4"%string]
  /\ contains_up_to_case "M31_001.dng" "m31".
Proof.
  split; [vm_compute; reflexivity |]. split; [vm_compute; reflexivity |].
  exists ""%string, "M31"%string, "_001.dng"%string.
  split; [reflexivity |]. cbn [equal_up_to_case].
  split; [| split; [left; reflexivity | split; [left; reflexivity | exact I]]].
  right. right. split; [| reflexivity].
  unfold capital. change (code "M") with 77. lia.
Qed.

Example filtered_raw_M31 :
  map id (filteredFiles
            (run [FilterChange "raw"; SearchChange "m31"] initial))
  = ["1"%string].
Proof. vm_compute. reflexivity. Qed.

Example filtered_video :
  map id (filteredFiles (run [FilterChange "video"] initial))
  = ["3"%string].
Proof. vm_compute. reflexivity. Qed.

End LibraryFacts.

(** ** TelemetryPanel: the periodic update *)

Module TelemetryFacts.
Import Telemetry.
Local Open Scope list_scope.
Local Open Scope Q_scope.

Section Rounding.
Variable rnd : Q -> Q.
Hypothesis rnd_exact : exact_on_integers rnd.

Lemma telemetry_run_snoc (rs : list Randoms) (r : Randoms)
      (st : TelemetryData) :
  run rnd (rs ++ [r]) st = tick rnd r (run rnd rs st).
Proof. unfold run. rewrite fold_left_app. reflexivity. Qed.

(** The clamp keeps the CPU usage between 10 and 90, whatever the jitter
    and its rounding. *)
Lemma tick_cpuUsage (r : Randoms) (prev : TelemetryData) :
  10 <= cpuUsage (tick rnd r prev) <= 90.
Proof.
  simpl. split.
  - apply Q.le_max_l.
  - apply Q.max_lub; [discriminate | apply Q.le_min_l].
Qed.

Lemma inject_Z_nonneg (z : Z) : (0 <= z)%Z -> 0 <= inject_Z z.
Proof. intros Hz. change 0 with (inject_Z 0). rewrite <- Zle_Qle. exact Hz. Qed.

(** One update moves the countdown one step. *)
Lemma tick_countdown (r : Randoms) (prev : TelemetryData) (n : nat) :
  countdown prev n -> countdown (tick rnd r prev) (S n).
Proof.
  unfold countdown. simpl.
  destruct (exposureRemaining prev) as [remaining |]; [| lia].
  intros (Hn & Hrem & _). unfold truthy.
  destruct (Qeq_bool remaining 0) eqn:Hzero; simpl.
  - apply Qeq_bool_iff in Hzero. rewrite Hzero in Hrem.
    change 0 with (inject_Z 0) in Hrem.
    apply (proj1 (inject_Z_injective _ _)) in Hrem. lia.
  - assert (Hpos : (245 - Z.of_nat n <> 0)%Z).
    { intros Heq. rewrite Heq in Hrem. change (inject_Z 0) with 0 in Hrem.
      apply Qeq_bool_iff in Hrem. congruence. }
    assert (Hnext : rnd (remaining - 1)
                    == inject_Z (245 - Z.of_nat (S n))).
    { apply rnd_exact; [lia |].
      rewrite Hrem. unfold Qeq. simpl. lia. }
    assert (Hge : 0 <= rnd (remaining - 1))
      by (rewrite Hnext; apply inject_Z_nonneg; lia).
    split; [lia |]. split.
    + rewrite Q.max_r by exact Hge. exact Hnext.
    + apply Q.le_max_l.
Qed.

Lemma run_countdown (rs : list Randoms) :
  countdown (run rnd rs (initial rnd)) (List.length rs).
Proof.
  induction rs as [| r rs IH] using rev_ind.
  - unfold countdown. simpl. repeat split; [lia | discriminate].
  - rewrite telemetry_run_snoc, length_app, Nat.add_1_r.
    apply tick_countdown, IH.
Qed.

Lemma run_cpuUsage (rs : list Randoms) :
  10 <= cpuUsage (run rnd rs (initial rnd)) <= 90.
Proof.
  destruct rs as [| r rs] using rev_ind.
  - simpl. split; discriminate.
  - rewrite telemetry_run_snoc. apply tick_cpuUsage.
Qed.
End Rounding.

(** C9. Whatever the random draws, and however arithmetic results are
    rounded (as long as integers up to 2^53 are kept exact), every state
    reached from the initial telemetry has a CPU usage between 10 and 90,
    and its exposure countdown, while defined, is non-negative and reads
    245 minus the number of updates: it goes down by one per update and is
    undefined from update 246 on. *)
Theorem telemetry_invariant (rnd : Q -> Q) (rs : list Randoms) :
  exact_on_integers rnd ->
  let st := run rnd rs (initial rnd) in
  (10 <= cpuUsage st <= 90)
  /\ match exposureRemaining st with
     | Some remaining =>
         (List.length rs <= 245)%nat
         /\ remaining == inject_Z (245 - Z.of_nat (List.length rs))
         /\ 0 <= remaining
     | None => (245 < List.length rs)%nat
     end.
Proof.
  intros Hrnd st. split.
  - apply run_cpuUsage.
  - apply (run_countdown rnd Hrnd rs).
Qed.

Lemma telemetry_invariant_witness :
  let rnd := fun x : Q => x in
  let rs := [ {| random_sensorTemp := 1 # 4; random_cpuTemp := 3 # 4;
                 random_cpuUsage := 0; random_focusMetric := 1 # 2 |};
              {| random_sensorTemp := 0; random_cpuTemp := 1 # 8;
                 random_cpuUsage := 0; random_focusMetric := 7 # 8 |};
              {| random_sensorTemp := 0; random_cpuTemp := 1 # 8;
                 random_cpuUsage := 0; random_focusMetric := 7 # 8 |};
              {| random_sensorTemp := 0; random_cpuTemp := 1 # 8;
                 random_cpuUsage := 0; random_focusMetric := 7 # 8 |};
              {| random_sensorTemp := 0; random_cpuTemp := 1 # 8;
                 random_cpuUsage := 0; random_focusMetric := 7 # 8 |};
              {| random_sensorTemp := 0; random_cpuTemp := 1 # 8;
                 random_cpuUsage := 0; random_focusMetric := 7 # 8 |} ] in
  exact_on_integers rnd
  /\ 10 <= cpuUsage (run rnd rs (initial rnd)) <= 90.
Proof.
  intros rnd rs.
  assert (Hrnd : exact_on_integers rnd) by (intros x z _ Hx; exact Hx).
  split; [exact Hrnd |].
  exact (proj1 (telemetry_invariant rnd rs Hrnd)).
Defined.

Example cpuUsage_clamped_below :
  cpuUsage (run (fun x => x)
                [ {| random_sensorTemp := 0; random_cpuTemp := 0;
                     random_cpuUsage := 0; random_focusMetric := 0 |};
                  {| random_sensorTemp := 0; random_cpuTemp := 0;
                     random_cpuUsage := 0; random_focusMetric := 0 |};
                  {| random_sensorTemp := 0; random_cpuTemp := 0;
                     random_cpuUsage := 0; random_focusMetric := 0 |};
                  {| random_sensorTemp := 0; random_cpuTemp := 0;
                     random_cpuUsage := 0; random_focusMetric := 0 |};
                  {| random_sensorTemp := 0; random_cpuTemp := 0;
                     random_cpuUsage := 0; random_focusMetric := 0 |};
                  {| random_sensorTemp := 0; random_cpuTemp := 0;
                     random_cpuUsage := 0; random_focusMetric := 0 |} ]
                (initial (fun x => x)))
  == 10.
Proof. vm_compute. reflexivity. Qed.

End TelemetryFacts.

(** ** Rounded quotients and the text of integers *)

Module NumberFacts.
Import JS.
Local Open Scope Q_scope.

Lemma Qfloor_unique (y : Q) (n : Z) :
  inject_Z n <= y -> y < inject_Z (n + 1) -> Qfloor y = n.
Proof.
  intros Hlo Hhi. apply Z.le_antisymm.
  - assert (H : inject_Z (Qfloor y) < inject_Z (n + 1)).
    { eapply Qle_lt_trans; [apply Qfloor_le | exact Hhi]. }
    rewrite <- Zlt_Qlt in H. lia.
  - rewrite <- (Qfloor_Z n). apply Qfloor_resp_le, Hlo.
Qed.

(** The floor of a rounded quotient of integers is the integer quotient:
    the rounding error is too small to reach the next integer. *)
Lemma floor_rounded_quotient (rnd : Q -> Q) (s : Z) (d : positive) (q : Q) :
  Telemetry.exact_on_integers rnd -> relative_error rnd ->
  (0 <= s < 2 ^ 53)%Z -> (Zpos d <= 4096)%Z ->
  q == inject_Z s / inject_Z (Zpos d) ->
  Qfloor (rnd q) = (s / Zpos d)%Z.
Proof.
  intros Hexact Herr Hs Hd Hq0.
  pose proof (Z.div_mod s (Zpos d) ltac:(lia)) as Hdiv.
  pose proof (Z.mod_pos_bound s (Zpos d) ltac:(lia)) as Hmod.
  set (n := (s / Zpos d)%Z) in *. set (r := (s mod Zpos d)%Z) in *.
  assert (Hn : (0 <= n <= s)%Z).
  { subst n. split; [apply Z.div_pos; lia | apply Z.div_le_upper_bound; nia]. }
  assert (HD : 0 < inject_Z (Zpos d)) by (rewrite <- (Zlt_Qlt 0); lia).
  assert (Hq : q * inject_Z (Zpos d)
               == inject_Z (Zpos d) * inject_Z n + inject_Z r).
  { rewrite Hq0, Qmult_comm, Qmult_div_r by lra.
    rewrite <- inject_Z_mult, <- inject_Z_plus, <- Hdiv. reflexivity. }
  destruct (Z.eq_dec r 0) as [Hr | Hr].
  - assert (Hqn : q == inject_Z n).
    { rewrite Hr in Hq. change (inject_Z 0) with 0 in Hq.
      apply (Qmult_inj_r _ _ (inject_Z (Zpos d))); [lra |]. lra. }
    assert (Hy : rnd q == inject_Z n) by (apply Hexact; [lia | exact Hqn]).
    rewrite Hy. apply Qfloor_Z.
  - assert (Hr1 : 1 <= inject_Z r) by (rewrite <- (Zle_Qle 1); lia).
    assert (Hr2 : inject_Z r + 1 <= inject_Z (Zpos d)).
    { change 1 with (inject_Z 1).
      rewrite <- inject_Z_plus, <- Zle_Qle. lia. }
    assert (HS : inject_Z (Zpos d) * inject_Z n + inject_Z r
                 < inject_Z (2 ^ 53)).
    { rewrite <- inject_Z_mult, <- inject_Z_plus, <- Zlt_Qlt. lia. }
    assert (HN : 0 <= inject_Z n) by (rewrite <- (Zle_Qle 0); lia).
    assert (HD4 : inject_Z (Zpos d) <= 4096)
      by (rewrite <- (Zle_Qle _ 4096); lia).
    change (inject_Z (2 ^ 53)) with 9007199254740992 in HS.
    assert (Hqpos : (1 # 4096) <= q).
    { apply (Qmult_le_r _ _ (inject_Z (Zpos d))); [exact HD |]. nra. }
    assert (Hqmax : q <= 9007199254740992).
    { apply (Qmult_le_r _ _ (inject_Z (Zpos d))); [exact HD |]. nra. }
    assert (Habs : Qabs q == q) by (apply Qabs_pos; lra).
    pose proof (Herr q) as He. rewrite Habs in He.
    specialize (He Hqpos Hqmax).
    apply Qabs_Qle_condition in He. destruct He as [He1 He2].
    apply Qfloor_unique.
    + apply (Qmult_le_r _ _ (inject_Z (Zpos d))); [exact HD |]. nra.
    + rewrite inject_Z_plus. change (inject_Z 1) with 1.
      apply (Qmult_lt_r _ _ (inject_Z (Zpos d))); [exact HD |]. nra.
Qed.

(** The identity is a rounding with no error at all. *)
Lemma identity_rounds :
  Telemetry.exact_on_integers (fun x => x)
  /\ relative_error (fun x => x)
  /\ exact_on_quarters (fun x => x).
Proof.
  split; [| split].
  - intros x z _ Hx. exact Hx.
  - intros x _ _. assert (H0 : x - x == 0) by ring. rewrite H0.
    change (Qabs 0) with 0. apply Qmult_le_0_compat; [apply Qabs_nonneg |].
    discriminate.
  - intros x k _ Hx. exact Hx.
Qed.

Lemma toString_inj (m n : N) : toString m = toString n -> m = n.
Proof.
  unfold toString. intros H.
  assert (Hnil : forall k, N.to_uint k <> Decimal.Nil)
    by (intros [| p]; [discriminate | apply DecimalPos.Unsigned.to_uint_nonnil]).
  apply DecimalN.Unsigned.to_uint_inj.
  assert (Hsome : Some (N.to_uint m) = Some (N.to_uint n)).
  { rewrite <- (NilZero.usu (N.to_uint m)) by apply Hnil.
    rewrite <- (NilZero.usu (N.to_uint n)) by apply Hnil.
    rewrite H. reflexivity. }
  injection Hsome as ->. reflexivity.
Qed.

Lemma number_text_small (z : Z) :
  (Z.abs z < 2 ^ 53)%Z -> number_text (Int z) = Some (integer_text z).
Proof.
  intros Hz. unfold number_text.
  destruct (Z.ltb_spec (Z.abs z) (2 ^ 53)) as [_ | Hbig]; [reflexivity |].
  lia.
Qed.

Lemma Q_text_integer (x : Q) (z : Z) :
  x == inject_Z z -> (Z.abs z < 2 ^ 53)%Z ->
  Q_text x = Some (integer_text z).
Proof.
  intros Hx Hz. unfold Q_text.
  assert (Hfloor : Qfloor x = z) by (rewrite Hx; apply Qfloor_Z).
  rewrite Hfloor.
  assert (Heq : Qeq_bool x (inject_Z z) = true) by (apply Qeq_bool_iff, Hx).
  rewrite Heq.
  destruct (Z.ltb_spec (Z.abs z) (2 ^ 53)) as [_ | Hbig]; [reflexivity |].
  lia.
Qed.

End NumberFacts.

(** ** SequencePlanner: the total badge and the item keys *)

Module PlannerViewFacts.
Import JS Planner.
Local Open Scope list_scope.

Lemma run_add_snoc (events : list Event) (e : Event) (st : State) :
  run (events ++ [e]) st = handle e (run events st).
Proof. unfold run. rewrite fold_left_app. reflexivity. Qed.

Lemma add_NaN_l (a : number) : add NaN a = NaN.
Proof. reflexivity. Qed.

Lemma add_NaN_r (a : number) : add a NaN = NaN.
Proof. destruct a; reflexivity. Qed.

(** Once the running total is NaN it stays NaN. *)
Lemma total_stays_NaN (items : list SequenceItem) :
  fold_left
    (fun total seq => add total (mul (frames seq) (exposureSeconds seq)))
    items NaN
  = NaN.
Proof. induction items as [| seq items IH]; [reflexivity | exact IH]. Qed.

Lemma total_NaN_from (items : list SequenceItem) (item : SequenceItem) :
  In item items -> frames item = NaN ->
  forall acc,
    fold_left
      (fun total seq => add total (mul (frames seq) (exposureSeconds seq)))
      items acc
    = NaN.
Proof.
  intros Hin Hnan. induction items as [| seq items IH]; intros acc;
    [destruct Hin |].
  cbn [fold_left]. destruct Hin as [-> | Hin].
  - rewrite Hnan. cbn [mul]. rewrite add_NaN_r. apply total_stays_NaN.
  - apply IH, Hin.
Qed.

(** X1. One item whose frames count is NaN (the Frames field was left
    empty) turns the whole total into NaN, whatever the other items, and
    the badge then reads NaNh NaNm. *)
Theorem total_is_NaN_with_a_NaN_frames (rnd : Q -> Q)
        (items : list SequenceItem) (item : SequenceItem) :
  In item items -> frames item = NaN ->
  totalDuration items = NaN
  /\ formatDuration rnd (totalDuration items) = Some "NaNh NaNm"%string.
Proof.
  intros Hin Hnan.
  assert (Htotal : totalDuration items = NaN)
    by (apply (total_NaN_from _ _ Hin Hnan)).
  rewrite Htotal. split; reflexivity.
Qed.

Lemma total_is_NaN_with_a_NaN_frames_witness :
  let item := {| id := "0"; type := subs; frames := NaN;
                 exposure := exposure_300; gain := Int 1600;
                 completed := Int 0; status := Pending;
                 interval := Some (Int 5) |} in
  let items := sequences (run [FramesChange ""; AddClick 0] initial) in
  In item items /\ frames item = NaN /\ totalDuration items = NaN.
Proof.
  intros item items.
  assert (Hin : In item items)
    by (vm_compute; right; right; left; reflexivity).
  split; [exact Hin |]. split; [reflexivity |].
  exact (proj1 (total_is_NaN_with_a_NaN_frames (fun x => x) items item
                  Hin eq_refl)).
Defined.

(** X2. Adding a sequence raises the total by the frames count of the form
    times the seconds of its exposure, in the arithmetic of numbers; the
    four form handlers leave the total as it is. *)
Theorem total_after_each_event (e : Event) (st : State) :
  match e with
  | AddClick now =>
      exists item,
        last (sequences (handle e st)) = Some item
        /\ frames item = new_frames (newSequence st)
        /\ exposure item = new_exposure (newSequence st)
        /\ totalDuration (sequences (handle e st))
           = add (totalDuration (sequences st))
                 (mul (frames item) (exposureSeconds item))
  | _ => totalDuration (sequences (handle e st))
         = totalDuration (sequences st)
  end.
Proof.
  destruct e; try reflexivity.
  simpl. eexists. split; [apply last_snoc |].
  split; [reflexivity |]. split; [reflexivity |].
  unfold totalDuration. rewrite fold_left_app. reflexivity.
Qed.

(** *** The exposure text *)





(** *** Hours and minutes *)

(** X4. For a whole number of seconds from 0 up to 2^53, [formatDuration]
    gives the hours [s / 3600] and the minutes [(s mod 3600) / 60] in
    decimal; the minutes are below 60, and hours and minutes account for
    all but the last, incomplete minute of the duration. *)
Theorem formatDuration_hours_minutes (rnd : Q -> Q) (s : Z) :
  Telemetry.exact_on_integers rnd -> relative_error rnd ->
  0 <= s < 2 ^ 53 ->
  let hours := s / 3600 in
  let minutes := (s mod 3600) / 60 in
  formatDuration rnd (Int s)
  = Some (integer_text hours ++ "h " ++ integer_text minutes ++ "m")%string
  /\ 0 <= minutes < 60
  /\ 3600 * hours + 60 * minutes <= s < 3600 * hours + 60 * minutes + 60.
Proof.
  intros Hexact Herr Hs hours minutes.
  pose proof (Z.mod_pos_bound s 3600 ltac:(lia)) as Hmod.
  pose proof (Z.div_mod s 3600 ltac:(lia)) as Hdiv.
  pose proof (Z.div_mod (s mod 3600) 60 ltac:(lia)) as Hdiv'.
  pose proof (Z.mod_pos_bound (s mod 3600) 60 ltac:(lia)) as Hmod'.
  assert (Hh : 0 <= hours <= s).
  { subst hours. split; [apply Z.div_pos; lia |].
    apply Z.div_le_upper_bound; lia. }
  assert (Hm : 0 <= minutes < 60).
  { subst minutes. split; [apply Z.div_pos; lia |].
    apply Z.div_lt_upper_bound; lia. }
  split; [| split; [exact Hm | subst hours minutes; lia]].
  unfold formatDuration. cbn [floor_div rem].
  rewrite Z.rem_mod_nonneg by lia.
  rewrite (NumberFacts.floor_rounded_quotient rnd s 3600)
    by (try assumption; try lia; reflexivity).
  rewrite (NumberFacts.floor_rounded_quotient rnd (s mod 3600) 60)
    by (try assumption; try lia; reflexivity).
  fold hours minutes.
  rewrite !NumberFacts.number_text_small by lia. reflexivity.
Qed.

Lemma formatDuration_hours_minutes_witness :
  Telemetry.exact_on_integers (fun x => x)
  /\ relative_error (fun x => x)
  /\ 0 <= 12000 < 2 ^ 53
  /\ formatDuration (fun x => x) (Int 12000) = Some "3h 20m"%string.
Proof.
  destruct NumberFacts.identity_rounds as (Hexact & Herr & _).
  assert (Hs : 0 <= 12000 < 2 ^ 53) by (split; [lia | reflexivity]).
  split; [exact Hexact |]. split; [exact Herr |]. split; [exact Hs |].
  exact (proj1 (formatDuration_hours_minutes _ 12000 Hexact Herr Hs)).
Defined.

(** *** The keys of the list *)

Lemma ids_of_run (events : list Event) :
  map id (sequences (run events initial))
  = map toString (1%N :: 2%N :: add_times events).
Proof.
  induction events as [| e events IH] using rev_ind; [reflexivity |].
  rewrite run_add_snoc. unfold add_times in *. rewrite omap_app.
  destruct e; simpl; try (rewrite app_nil_r; exact IH).
  rewrite map_app, IH. simpl. rewrite map_app. reflexivity.
Qed.

(** X5. The identifiers of the items, which serve as their keys, are
    pairwise distinct exactly when the Add clicks read pairwise distinct
    instants other than 1 and 2: two clicks within one millisecond give two
    items the same key. *)
Theorem ids_distinct_iff_instants_distinct (events : list Event) :
  List.NoDup (map id (sequences (run events initial)))
  <-> List.NoDup (1%N :: 2%N :: add_times events).
Proof.
  rewrite ids_of_run. split.
  - apply NoDup_map_inv.
  - apply Finite.Injective_map_NoDup. intros m n. apply NumberFacts.toString_inj.
Qed.

Example same_instant_same_key :
  map id (sequences (run [AddClick 1700000000000; AddClick 1700000000000]
                         initial))
  = ["1"; "2"; "1700000000000"; "1700000000000"]%string.
Proof. vm_compute. reflexivity. Qed.

End PlannerViewFacts.

(** ** FileLibrary: searching, filtering and grouping *)

Module SessionFacts.
Import JS Library.
Local Open Scope list_scope.

Lemma filter_sublist_impl {A : Type} (f g : A -> bool) (l : list A) :
  (forall x, f x = true -> g x = true) ->
  List.filter f l `sublist_of` List.filter g l.
Proof.
  intros Himpl. induction l as [| x l IH]; simpl; [constructor |].
  destruct (f x) eqn:Hf.
  - rewrite (Himpl x Hf). apply sublist_skip, IH.
  - destruct (g x); [apply sublist_cons |]; exact IH.
Qed.

Lemma matches_search_empty (file : FileItem) : matches_search "" file = true.
Proof. reflexivity. Qed.

(** The filter callback is the type test and the search test. *)
Lemma keep_factors (filterType term : string) (file : FileItem) :
  keep filterType term file
  = keep filterType "" file && matches_search term file.
Proof.
  unfold keep. rewrite matches_search_empty.
  destruct (negb (String.eqb filterType "all")); [| reflexivity].
  repeat match goal with
         | |- context [if ?c then false else _] => destruct c
         end; reflexivity.
Qed.

Lemma matches_search_spec (term : string) (file : FileItem) :
  matches_search term file = true
  <-> contains_ignoring_case (name file) term.
Proof.
  unfold matches_search. destruct (nonempty term) eqn:Hne; simpl.
  - rewrite <- LibraryFacts.search_spec.
    destruct (includes _ _); simpl; split; auto; discriminate.
  - apply LibraryFacts.nonempty_false in Hne as ->.
    split; [intros _; apply LibraryFacts.contains_empty | reflexivity].
Qed.

Lemma contains_ignoring_case_trans (s t u : string) :
  contains_ignoring_case s t -> contains_ignoring_case t u ->
  contains_ignoring_case s u.
Proof.
  intros (a & m & b & -> & Hm) (a' & m' & b' & -> & Hm').
  rewrite !LibraryFacts.toLowerCase_app in Hm.
  apply LibraryFacts.toLowerCase_split in Hm as (m1 & rest & -> & _ & Hrest).
  apply LibraryFacts.toLowerCase_split in Hrest as (m2 & m3 & -> & Hm2 & _).
  exists (a ++ m1)%string, m2, (m3 ++ b)%string. split.
  - clear. induction a as [| c a IH]; simpl.
    + induction m1 as [| c m1 IH]; simpl; [| rewrite IH; reflexivity].
      induction m2 as [| c m2 IH]; simpl; [| rewrite IH; reflexivity].
      reflexivity.
    + rewrite IH. reflexivity.
  - rewrite Hm2. exact Hm'.
Qed.

(** X6. Narrowing the search never brings a file back: when the new search
    term contains the old one up to letter case (for instance after typing
    more characters) and the filter is the same, the new list is an
    order-preserving sublist of the old one. *)
Theorem narrower_search_shows_sublist (st st' : State) :
  filterType st' = filterType st ->
  contains_ignoring_case (searchTerm st') (searchTerm st) ->
  filteredFiles st' `sublist_of` filteredFiles st.
Proof.
  intros Hfilter Hterm. unfold filteredFiles. rewrite Hfilter.
  apply filter_sublist_impl. intros file.
  rewrite (keep_factors _ (searchTerm st')), (keep_factors _ (searchTerm st)).
  rewrite !andb_true_iff, !matches_search_spec.
  intros [Htype Hname]. split; [exact Htype |].
  eapply contains_ignoring_case_trans; [exact Hname | exact Hterm].
Qed.

Lemma narrower_search_shows_sublist_witness :
  let st := handle (SearchChange "m31") initial in
  let st' := handle (SearchChange "M31_001.d") initial in
  filterType st' = filterType st
  /\ contains_ignoring_case (searchTerm st') (searchTerm st)
  /\ filteredFiles st' `sublist_of` filteredFiles st.
Proof.
  intros st st'.
  assert (Hfilter : filterType st' = filterType st) by reflexivity.
  assert (Hterm : contains_ignoring_case (searchTerm st') (searchTerm st))
    by (exists ""%string, "M31"%string, "_001.d"%string;
        split; reflexivity).
  split; [exact Hfilter |]. split; [exact Hterm |].
  exact (narrower_search_shows_sublist st st' Hfilter Hterm).
Defined.

Lemma keep_raw_image (term : string) (file : FileItem) :
  keep "raw" term file = true -> keep "image" term file = true.
Proof.
  rewrite (keep_factors "raw"), (keep_factors "image").
  destruct (matches_search term file);
    rewrite ?andb_true_r, ?andb_false_r; [| auto].
  unfold keep. destruct (type file); simpl; auto.
Qed.

Lemma keep_any_all (filterType term : string) (file : FileItem) :
  keep filterType term file = true -> keep "all" term file = true.
Proof.
  intros H. rewrite keep_factors in H.
  apply andb_true_iff in H as [_ H]. exact H.
Qed.

Lemma keep_image_video (term : string) (file : FileItem) :
  keep "image" term file = true -> keep "video" term file = false.
Proof.
  rewrite (keep_factors "image"), (keep_factors "video").
  destruct (matches_search term file);
    rewrite ?andb_true_r, ?andb_false_r; [| auto].
  unfold keep. destruct (type file); simpl; auto; discriminate.
Qed.

(** X7. Whatever the search term, the filter entries nest: the RAW list is
    a sublist of the Images list, every filtered list is a sublist of the
    All Files list, and no file is in both the Images and the Videos
    list. *)
Theorem filter_entries_nest (st : State) :
  let files := fun value => filteredFiles (handle (FilterChange value) st) in
  files "raw"%string `sublist_of` files "image"%string
  /\ (forall value, files value `sublist_of` files "all"%string)
  /\ (forall file, In file (files "image"%string) ->
                   ~ In file (files "video"%string)).
Proof.
  intros files. unfold files, filteredFiles.
  cbn [handle filterType searchTerm]. split; [| split].
  - apply filter_sublist_impl. intros file. apply keep_raw_image.
  - intros value. apply filter_sublist_impl. intros file. apply keep_any_all.
  - intros file. rewrite !List.filter_In. intros [_ Himage] [_ Hvideo].
    apply keep_image_video in Himage. congruence.
Qed.

Lemma toLowerCase_empty (s : string) :
  toLowerCase s = ""%string -> s = ""%string.
Proof. destruct s; [reflexivity | discriminate]. Qed.

(** X8. The search does not see the letter case of the search term: two
    terms with the same lower-case form give the same filtered list. *)
Theorem search_ignores_case_of_term (st : State) (term term' : string) :
  toLowerCase term = toLowerCase term' ->
  filteredFiles (handle (SearchChange term) st)
  = filteredFiles (handle (SearchChange term') st).
Proof.
  intros Hlower. unfold filteredFiles. cbn [handle filterType searchTerm].
  apply List.filter_ext. intros file.
  rewrite (keep_factors _ term), (keep_factors _ term'). f_equal.
  unfold matches_search. rewrite Hlower.
  assert (Hne : nonempty term = nonempty term').
  { unfold nonempty.
    destruct (String.eqb_spec term ""), (String.eqb_spec term' "");
      try reflexivity; subst.
    - symmetry in Hlower. apply toLowerCase_empty in Hlower. contradiction.
    - apply toLowerCase_empty in Hlower. contradiction. }
  rewrite Hne. reflexivity.
Qed.

Lemma search_ignores_case_of_term_witness :
  toLowerCase "DARK" = toLowerCase "dark"
  /\ filteredFiles (handle (SearchChange "DARK") initial)
     = filteredFiles (handle (SearchChange "dark") initial).
Proof.
  assert (Hlower : toLowerCase "DARK" = toLowerCase "dark") by reflexivity.
  split; [exact Hlower |].
  exact (search_ignores_case_of_term initial _ _ Hlower).
Defined.

End SessionFacts.

(** ** FileLibrary: the groups of the Sessions tab *)

Module GroupFacts.
Import JS Library.
Local Open Scope list_scope.

Lemma group_get_set (groups : Groups) (key key' : string)
      (files : list FileItem) :
  group_get (group_set groups key files) key'
  = if String.eqb key key' then Some files else group_get groups key'.
Proof.
  induction groups as [| [k old] groups IH]; simpl.
  - destruct (String.eqb key key'); reflexivity.
  - destruct (String.eqb_spec k key) as [-> | Hk]; simpl.
    + destruct (String.eqb key key'); reflexivity.
    + rewrite IH. destruct (String.eqb_spec k key') as [-> | Hk'];
        [| reflexivity].
      destruct (String.eqb_spec key key'); [congruence | reflexivity].
Qed.

Lemma group_get_push (groups : Groups) (key key' : string)
      (file : FileItem) :
  group_get (group_push groups key file) key'
  = if String.eqb key key'
    then option_map (fun files => files ++ [file]) (group_get groups key')
    else group_get groups key'.
Proof.
  induction groups as [| [k files] groups IH]; simpl.
  - destruct (String.eqb key key'); reflexivity.
  - destruct (String.eqb_spec k key) as [-> | Hk]; simpl.
    + destruct (String.eqb key key'); reflexivity.
    + rewrite IH. destruct (String.eqb_spec k key') as [-> | Hk'];
        [| reflexivity].
      destruct (String.eqb_spec key key'); [congruence | reflexivity].
Qed.

Lemma group_get_None (groups : Groups) (key : string) :
  group_get groups key = None <-> ~ In key (map fst groups).
Proof.
  induction groups as [| [k files] groups IH]; simpl; [tauto |].
  destruct (String.eqb_spec k key) as [-> | Hk].
  - split; [discriminate | tauto].
  - rewrite IH. tauto.
Qed.

Lemma keys_push (groups : Groups) (key : string) (file : FileItem) :
  map fst (group_push groups key file) = map fst groups.
Proof.
  induction groups as [| [k files] groups IH]; simpl; [reflexivity |].
  destruct (String.eqb k key); simpl; [| rewrite IH]; reflexivity.
Qed.

Lemma keys_set_new (groups : Groups) (key : string) (files : list FileItem) :
  group_get groups key = None ->
  map fst (group_set groups key files) = map fst groups ++ [key].
Proof.
  induction groups as [| [k old] groups IH]; simpl; [reflexivity |].
  destruct (String.eqb k key); [discriminate |].
  intros Hnone. simpl. rewrite IH by exact Hnone. reflexivity.
Qed.

(** With distinct keys, the entries are the results of the lookups. *)
Lemma entry_iff_get (groups : Groups) (key : string)
      (files : list FileItem) :
  List.NoDup (map fst groups) ->
  In (key, files) groups <-> group_get groups key = Some files.
Proof.
  induction groups as [| [k old] groups IH]; simpl; intros Hnodup.
  - split; [tauto | discriminate].
  - inversion Hnodup as [| ? ? Hfresh Hrest]; subst.
    destruct (String.eqb_spec k key) as [-> | Hk].
    + split.
      * intros [[= ->] | Hin]; [reflexivity |].
        exfalso. apply Hfresh. apply (in_map fst) in Hin. exact Hin.
      * intros [= ->]. left. reflexivity.
    + rewrite <- IH by exact Hrest. split.
      * intros [[= -> _] | Hin]; [contradiction | exact Hin].
      * intros Hin. right. exact Hin.
Qed.

Lemma of_session_snoc (key : string) (files : list FileItem)
      (file : FileItem) :
  of_session key (files ++ [file])
  = of_session key files
    ++ (if String.eqb (session file) key then [file] else []).
Proof. unfold of_session. rewrite List.filter_app. reflexivity. Qed.

(** What the reduction has built after a list of files. *)
Lemma grouped_invariant (files : list FileItem) :
  List.NoDup (map fst (fold_left group_step files []))
  /\ forall key,
       group_get (fold_left group_step files []) key
       = match of_session key files with
         | [] => None
         | group => Some group
         end.
Proof.
  induction files as [| file files [IHkeys IHget]] using rev_ind.
  - split; [constructor | reflexivity].
  - rewrite fold_left_app. cbn [fold_left].
    set (groups := fold_left group_step files []) in *.
    unfold group_step.
    pose proof (IHget (session file)) as Hown.
    split.
    + rewrite keys_push.
      destruct (group_get groups (session file)) eqn:Hget; [exact IHkeys |].
      rewrite keys_set_new by exact Hget.
      apply List.NoDup_app; [exact IHkeys | |].
      * repeat constructor. intros [].
      * intros key Hin [<- | []]. apply group_get_None in Hget.
        contradiction.
    + intros key. rewrite group_get_push, of_session_snoc.
      destruct (String.eqb_spec (session file) key) as [<- | Hkey].
      * destruct (group_get groups (session file)) eqn:Hget.
        -- rewrite Hget. simpl.
           destruct (of_session (session file) files) as [| x group];
             [discriminate Hown |].
           injection Hown as ->. reflexivity.
        -- rewrite group_get_set, String.eqb_refl. simpl.
           destruct (of_session (session file) files); [reflexivity |].
           discriminate Hown.
      * rewrite app_nil_r.
        destruct (group_get groups (session file)); [apply IHget |].
        rewrite group_get_set.
        destruct (String.eqb_spec (session file) key); [contradiction |].
        apply IHget.
Qed.

(** X9. The Sessions tab partitions the filtered files by session: the
    session names of the groups are pairwise distinct, and the groups are
    exactly the non-empty lists of the filtered files of one session, in
    the order of the filtered list; so every filtered file is in one group,
    the one of its session. *)
Theorem groupedFiles_partitions_by_session (st : State) :
  List.NoDup (map fst (groupedFiles st))
  /\ (forall key group,
        In (key, group) (groupedFiles st)
        <-> group <> [] /\ group = of_session key (filteredFiles st))
  /\ (forall file,
        In file (filteredFiles st) ->
        exists group, In (session file, group) (groupedFiles st)
                      /\ In file group).
Proof.
  unfold groupedFiles.
  destruct (grouped_invariant (filteredFiles st)) as [Hkeys Hget].
  assert (Hentry : forall key group,
             In (key, group) (fold_left group_step (filteredFiles st) [])
             <-> group <> [] /\ group = of_session key (filteredFiles st)).
  { intros key group. rewrite (entry_iff_get _ _ _ Hkeys), Hget.
    destruct (of_session key (filteredFiles st)) as [| x rest]; split.
    - discriminate.
    - intros [Hne ->]. contradiction.
    - intros [= <-]. split; [discriminate | reflexivity].
    - intros [_ ->]. reflexivity. }
  split; [exact Hkeys |]. split; [exact Hentry |].
  intros file Hin.
  assert (Hmember : In file (of_session (session file) (filteredFiles st))).
  { unfold of_session. apply List.filter_In.
    split; [exact Hin | apply String.eqb_refl]. }
  exists (of_session (session file) (filteredFiles st)).
  split; [| exact Hmember].
  apply Hentry. split; [| reflexivity].
  intros Hempty. rewrite Hempty in Hmember. destruct Hmember.
Qed.

Lemma groupedFiles_partitions_by_session_witness :
  let st := handle (FilterChange "raw") initial in
  let file := {| id := "4"; name := "dark_001.dng"; type := dng;
                 size := 25600000; timestamp := "2024-01-15T23:00:00";
                 session := "M31_20240115";
                 metadata := Some still_metadata |} in
  In file (filteredFiles st)
  /\ exists group, In (session file, group) (groupedFiles st)
                   /\ In file group.
Proof.
  intros st file.
  assert (Hin : In file (filteredFiles st))
    by (vm_compute; right; left; reflexivity).
  split; [exact Hin |].
  exact (proj2 (proj2 (groupedFiles_partitions_by_session st)) file Hin).
Defined.

Example groupedFiles_raw :
  map (fun entry => (fst entry, map id (snd entry)))
      (groupedFiles (handle (FilterChange "raw") initial))
  = [("M31_20240115", ["1"; "4"])]%string.
Proof. vm_compute. reflexivity. Qed.

End GroupFacts.

(** ** TelemetryPanel: colours, the countdown text and the fixed readings *)

Module PanelFacts.
Import Telemetry.
Local Open Scope list_scope.
Local Open Scope Q_scope.

Lemma above_spec (temp limit : Q) : above temp limit = true <-> limit < temp.
Proof.
  unfold above. rewrite negb_true_iff, <- not_true_iff_false, Qle_bool_iff.
  split; [apply Qnot_le_lt | apply Qlt_not_le].
Qed.

Lemma above_mono (t1 t2 limit : Q) :
  t1 <= t2 -> above t1 limit = true -> above t2 limit = true.
Proof. rewrite !above_spec. intros H1 H2. lra. Qed.

Lemma above_lower (temp l1 l2 : Q) :
  l1 <= l2 -> above temp l2 = true -> above temp l1 = true.
Proof. rewrite !above_spec. intros H1 H2. lra. Qed.

(** X10. The temperature colour never gets milder as the temperature rises,
    and at every temperature the sensor colour is at least as severe as the
    CPU colour (the sensor limits, above 40 and above 50, lie below the CPU
    limits, above 70 and above 80); a temperature exactly on a limit keeps
    the milder colour. *)
Theorem temperature_colour_is_monotone :
  (forall t1 t2 isCamera,
      t1 <= t2 ->
      (severity (getTemperatureColor t1 isCamera)
       <= severity (getTemperatureColor t2 isCamera))%nat)
  /\ (forall temp,
        (severity (getTemperatureColor temp false)
         <= severity (getTemperatureColor temp true))%nat)
  /\ getTemperatureColor 50 true = "text-yellow-500"%string
  /\ getTemperatureColor 80 false = "text-yellow-500"%string.
Proof.
  split; [| split; [| split; reflexivity]].
  - intros t1 t2 isCamera Hle. unfold getTemperatureColor.
    destruct isCamera.
    + destruct (above t1 50) eqn:H50.
      * rewrite (above_mono _ _ _ Hle H50). reflexivity.
      * destruct (above t1 40) eqn:H40.
        -- rewrite (above_mono _ _ _ Hle H40).
           destruct (above t2 50); vm_compute; lia.
        -- destruct (above t2 50), (above t2 40); vm_compute; lia.
    + destruct (above t1 80) eqn:H80.
      * rewrite (above_mono _ _ _ Hle H80). reflexivity.
      * destruct (above t1 70) eqn:H70.
        -- rewrite (above_mono _ _ _ Hle H70).
           destruct (above t2 80); vm_compute; lia.
        -- destruct (above t2 80), (above t2 70); vm_compute; lia.
  - intros temp. unfold getTemperatureColor.
    destruct (above temp 80) eqn:H80.
    + rewrite (above_lower temp 50 80 ltac:(discriminate) H80). reflexivity.
    + destruct (above temp 70) eqn:H70.
      * rewrite (above_lower temp 40 70 ltac:(discriminate) H70).
        destruct (above temp 50); vm_compute; lia.
      * destruct (above temp 50), (above temp 40); vm_compute; lia.
Qed.

Lemma temperature_colour_is_monotone_witness :
  (85 # 2) <= 51
  /\ (severity (getTemperatureColor (85 # 2) true)
      <= severity (getTemperatureColor 51 true))%nat.
Proof.
  assert (Hle : (85 # 2) <= 51) by discriminate.
  split; [exact Hle |].
  exact (proj1 temperature_colour_is_monotone _ _ true Hle).
Defined.

(** *** The countdown text *)

Lemma Qrem_integer (x : Q) (s : Z) (d : positive) :
  (0 <= s)%Z -> x == inject_Z s ->
  JS.Qrem x d == inject_Z (s mod Zpos d).
Proof.
  intros Hs Hx. unfold JS.Qrem.
  assert (Hnum : Qnum x = (s * Zpos (Qden x))%Z).
  { unfold Qeq in Hx. simpl in Hx. lia. }
  rewrite Hnum, (Z.mul_comm s), Z.quot_mul_cancel_l by discriminate.
  rewrite Z.quot_div_nonneg by lia.
  rewrite Hx, <- inject_Z_mult.
  unfold Qminus. rewrite <- inject_Z_opp, <- inject_Z_plus.
  apply inject_Z_injective. rewrite Z.mod_eq by discriminate. lia.
Qed.

Lemma two_digits_spec (secs : Z) :
  (0 <= secs < 60)%Z ->
  JS.padStart (JS.integer_text secs) 2 "0" = two_digits secs
  /\ String.length (two_digits secs) = 2%nat.
Proof.
  intros Hsecs.
  assert (Hin : In (Z.to_nat secs) (seq 0 60)) by (apply in_seq; lia).
  rewrite <- (Z2Nat.id secs) by lia.
  revert Hin. generalize (Z.to_nat secs). intros n Hin.
  cbn [seq] in Hin.
  repeat (destruct Hin as [<- | Hin]; [split; vm_compute; reflexivity |]).
  destruct Hin.
Qed.

Lemma formatTime_minutes_and_two_digits_aux (rnd : Q -> Q) (seconds : Q)
      (s : Z) :
  exact_on_integers rnd -> JS.relative_error rnd ->
  (0 <= s < 2 ^ 53)%Z -> seconds == inject_Z s ->
  formatTime rnd seconds
  = Some (JS.integer_text (s / 60) ++ ":" ++ two_digits (s mod 60))%string.
Proof.
  intros Hexact Herr Hs Hseconds.
  pose proof (Z.mod_pos_bound s 60 ltac:(lia)) as Hmod.
  assert (Hmins : (0 <= s / 60 <= s)%Z).
  { split; [apply Z.div_pos; lia | apply Z.div_le_upper_bound; lia]. }
  destruct (two_digits_spec (s mod 60) Hmod) as [Hpad _].
  assert (Hquot : seconds / 60 == inject_Z s / inject_Z 60)
    by (rewrite Hseconds; reflexivity).
  assert (Hfloor : Qfloor (rnd (seconds / 60)) = (s / 60)%Z).
  { apply (NumberFacts.floor_rounded_quotient rnd s 60);
      try assumption; lia. }
  assert (Hm : JS.Q_text (inject_Z (s / 60))
               = Some (JS.integer_text (s / 60))).
  { apply NumberFacts.Q_text_integer; [reflexivity | lia]. }
  assert (Hsec : JS.Q_text (JS.Qrem seconds 60)
                 = Some (JS.integer_text (s mod 60))).
  { apply NumberFacts.Q_text_integer; [| lia].
    apply Qrem_integer; [lia | exact Hseconds]. }
  unfold formatTime. rewrite Hfloor, Hm, Hsec, Hpad. reflexivity.
Qed.

(** X11. For a whole number of seconds from 0 up to 2^53, [formatTime]
    gives the minutes [s / 60] in decimal, a colon, and [s mod 60] as
    exactly two digits. *)
Theorem formatTime_minutes_and_two_digits (rnd : Q -> Q) (seconds : Q)
        (s : Z) :
  exact_on_integers rnd -> JS.relative_error rnd ->
  (0 <= s < 2 ^ 53)%Z -> seconds == inject_Z s ->
  formatTime rnd seconds
  = Some (JS.integer_text (s / 60) ++ ":" ++ two_digits (s mod 60))%string
  /\ String.length (two_digits (s mod 60)) = 2%nat.
Proof.
  intros Hexact Herr Hs Hseconds. split.
  - apply formatTime_minutes_and_two_digits_aux; assumption.
  - apply two_digits_spec. apply Z.mod_pos_bound. lia.
Qed.

Lemma formatTime_minutes_and_two_digits_witness :
  exact_on_integers (fun x => x)
  /\ JS.relative_error (fun x => x)
  /\ (0 <= 245 < 2 ^ 53)%Z
  /\ formatTime (fun x => x) 245 = Some "4:05"%string.
Proof.
  destruct NumberFacts.identity_rounds as (Hexact & Herr & _).
  assert (Hs : (0 <= 245 < 2 ^ 53)%Z) by (split; [lia | reflexivity]).
  split; [exact Hexact |]. split; [exact Herr |]. split; [exact Hs |].
  exact (proj1 (formatTime_minutes_and_two_digits _ 245 245 Hexact Herr Hs
                  (Qeq_refl _))).
Defined.

(** *** The readings the update leaves alone *)

Lemma panel_run_snoc (rnd : Q -> Q) (rs : list Randoms) (r : Randoms)
      (st : TelemetryData) :
  run rnd (rs ++ [r]) st = tick rnd r (run rnd rs st).
Proof. unfold run. rewrite fold_left_app. reflexivity. Qed.

(** X12. The periodic update never changes the storage, battery and WiFi
    readings: after any number of updates they are those of the initial
    state, 512 GB of storage, a battery at 78 and a WiFi signal of 85. *)
Theorem update_keeps_storage_battery_wifi (rnd : Q -> Q)
        (rs : list Randoms) :
  let st := run rnd rs (initial rnd) in
  storageUsed st = storageUsed (initial rnd)
  /\ storageTotal st = 512
  /\ batteryLevel st = Some 78
  /\ wifiSignal st = 85.
Proof.
  induction rs as [| r rs IH] using rev_ind.
  - repeat split.
  - rewrite panel_run_snoc. exact IH.
Qed.

(** X18. After [n] updates with [n] below 245 the Exposure badge shows the
    remaining [245 - n] seconds as minutes, a colon and two digits; from
    update 245 on there is no badge. *)
Theorem exposure_badge_counts_down (rnd : Q -> Q) (rs : list Randoms) :
  exact_on_integers rnd -> JS.relative_error rnd ->
  let left := (245 - Z.of_nat (List.length rs))%Z in
  exposure_badge rnd (run rnd rs (initial rnd))
  = if (0 <? left)%Z
    then Some (JS.integer_text (left / 60) ++ ":"
               ++ two_digits (left mod 60))%string
    else None.
Proof.
  intros Hexact Herr left.
  pose proof (TelemetryFacts.run_countdown rnd Hexact rs) as Hcount.
  unfold countdown in Hcount. unfold exposure_badge.
  destruct (exposureRemaining (run rnd rs (initial rnd))) as [remaining |].
  - destruct Hcount as (Hn & Hrem & _). fold left in Hrem.
    unfold truthy. destruct (Qeq_bool remaining 0) eqn:Hzero; simpl.
    + apply Qeq_bool_iff in Hzero. rewrite Hzero in Hrem.
      change 0 with (inject_Z 0) in Hrem.
      apply (proj1 (inject_Z_injective _ _)) in Hrem.
      rewrite <- Hrem. reflexivity.
    + assert (Hpos : (0 < left)%Z).
      { destruct (Z.eq_dec left 0) as [Heq | Hne]; [| lia].
        rewrite Heq in Hrem. change (inject_Z 0) with 0 in Hrem.
        apply Qeq_bool_iff in Hrem. congruence. }
      rewrite (proj2 (Z.ltb_lt 0 left) Hpos).
      apply (formatTime_minutes_and_two_digits_aux rnd remaining left);
        try assumption.
      assert ((245 < 2 ^ 53)%Z) by reflexivity. lia.
  - assert (Hneg : (left <= 0)%Z) by lia.
    rewrite (proj2 (Z.ltb_ge 0 left) Hneg). reflexivity.
Qed.

Lemma exposure_badge_counts_down_witness :
  exact_on_integers (fun x => x)
  /\ JS.relative_error (fun x => x)
  /\ exposure_badge (fun x => x)
       (run (fun x => x)
            [ {| random_sensorTemp := 0; random_cpuTemp := 0;
                 random_cpuUsage := 0; random_focusMetric := 0 |} ]
            (initial (fun x => x)))
     = Some "4:04"%string.
Proof.
  destruct NumberFacts.identity_rounds as (Hexact & Herr & _).
  split; [exact Hexact |]. split; [exact Herr |].
  exact (exposure_badge_counts_down (fun x => x)
           [ {| random_sensorTemp := 0; random_cpuTemp := 0;
                random_cpuUsage := 0; random_focusMetric := 0 |} ]
           Hexact Herr).
Defined.

End PanelFacts.

(** ** CameraPreview: the zoom *)

Module PreviewFacts.
Import Preview.
Local Open Scope list_scope.
Local Open Scope Q_scope.

Lemma preview_run_snoc (rnd : Q -> Q) (events : list Event) (e : Event)
      (st : State) :
  run rnd (events ++ [e]) st = handle rnd e (run rnd events st).
Proof. unfold run. rewrite fold_left_app. reflexivity. Qed.

Section Rounding.
Variable rnd : Q -> Q.
Hypothesis rnd_exact : JS.exact_on_quarters rnd.

Lemma zoomOut_disabled_spec (st : State) (k : Z) :
  zoom st == k # 4 -> zoomOut_disabled st = true <-> (k <= 2)%Z.
Proof.
  intros Hk. unfold zoomOut_disabled. rewrite Qle_bool_iff, Hk.
  unfold Qle; simpl; lia.
Qed.

Lemma zoomIn_disabled_spec (st : State) (k : Z) :
  zoom st == k # 4 -> zoomIn_disabled st = true <-> (12 <= k)%Z.
Proof.
  intros Hk. unfold zoomIn_disabled. rewrite Qle_bool_iff, Hk.
  unfold Qle; simpl; lia.
Qed.

(** An enabled zoom-out click moves the zoom one quarter down. *)
Lemma zoom_out_step (st : State) (k : Z) :
  zoom st == k # 4 -> (3 <= k <= 12)%Z ->
  zoom (handle rnd ZoomOutClick st) == (k - 1) # 4.
Proof.
  intros Hk Hrange. cbn [handle].
  destruct (zoomOut_disabled st) eqn:Hdis.
  - apply (zoomOut_disabled_spec st k Hk) in Hdis. lia.
  - cbn [zoom].
    assert (Hnext : rnd (zoom st - (1 # 4)) == (k - 1) # 4).
    { apply rnd_exact; [lia |]. rewrite Hk. unfold Qeq. simpl. lia. }
    rewrite Hnext. apply Q.max_r. unfold Qle; simpl; lia.
Qed.

(** An enabled zoom-in click moves the zoom one quarter up. *)
Lemma zoom_in_step (st : State) (k : Z) :
  zoom st == k # 4 -> (2 <= k <= 11)%Z ->
  zoom (handle rnd ZoomInClick st) == (k + 1) # 4.
Proof.
  intros Hk Hrange. cbn [handle].
  destruct (zoomIn_disabled st) eqn:Hdis.
  - apply (zoomIn_disabled_spec st k Hk) in Hdis. lia.
  - cbn [zoom].
    assert (Hnext : rnd (zoom st + (1 # 4)) == (k + 1) # 4).
    { apply rnd_exact; [lia |]. rewrite Hk. unfold Qeq. simpl. lia. }
    rewrite Hnext. apply Q.min_r. unfold Qle; simpl; lia.
Qed.

(** The zoom of a reachable state is a number of quarters from 2 to 12. *)
Lemma run_zoom (events : list Event) :
  exists k, (2 <= k <= 12)%Z /\ zoom (run rnd events initial) == k # 4.
Proof.
  induction events as [| e events (k & Hrange & Hk)] using rev_ind.
  - exists 4%Z. split; [lia | reflexivity].
  - rewrite preview_run_snoc. set (st := run rnd events initial) in *.
    destruct e.
    + exists k. split; [exact Hrange | exact Hk].
    + exists k. split; [exact Hrange | exact Hk].
    + destruct (Z.eq_dec k 2) as [-> | Hne].
      * exists 2%Z. split; [lia |]. cbn [handle].
        rewrite (proj2 (zoomOut_disabled_spec st 2 Hk)) by lia. exact Hk.
      * exists (k - 1)%Z. split; [lia |]. apply zoom_out_step; [exact Hk | lia].
    + destruct (Z.eq_dec k 12) as [-> | Hne].
      * exists 12%Z. split; [lia |]. cbn [handle].
        rewrite (proj2 (zoomIn_disabled_spec st 12 Hk)) by lia. exact Hk.
      * exists (k + 1)%Z. split; [lia |]. apply zoom_in_step; [exact Hk | lia].
Qed.

Lemma zoom_percent_quarters (st : State) (k : Z) :
  (2 <= k <= 12)%Z -> zoom st == k # 4 -> zoom_percent rnd st = (25 * k)%Z.
Proof.
  intros Hrange Hk. unfold zoom_percent, JS.round.
  assert (Hy : rnd (zoom st * 100) == (100 * k) # 4).
  { apply rnd_exact; [lia |]. rewrite Hk. unfold Qeq. simpl. lia. }
  assert (Hint : (100 * k) # 4 == inject_Z (25 * k))
    by (unfold Qeq; simpl; lia).
  apply NumberFacts.Qfloor_unique.
  - rewrite Hy, Hint. lra.
  - rewrite Hy, Hint, inject_Z_plus. change (inject_Z 1) with 1. lra.
Qed.
End Rounding.

(** X13. Whatever the clicks, the zoom is one of the eleven values 0.5,
    0.75, ..., 3: a whole number of quarters from 2 to 12, so it stays
    within [0.5, 3], and the badge shows 25 times that number of quarters,
    from 50 to 300 percent. *)
Theorem zoom_is_a_quarter_between_half_and_three (rnd : Q -> Q)
        (events : list Event) :
  JS.exact_on_quarters rnd ->
  let st := run rnd events initial in
  exists k,
    (2 <= k <= 12)%Z /\ zoom st == k # 4
    /\ (1 # 2) <= zoom st <= 3
    /\ zoom_percent rnd st = (25 * k)%Z.
Proof.
  intros Hrnd st. destruct (run_zoom rnd Hrnd events) as (k & Hrange & Hk).
  exists k. split; [exact Hrange |]. split; [exact Hk |]. split.
  - fold st in Hk. rewrite Hk. split.
    + unfold Qle; simpl; lia.
    + unfold Qle; simpl; lia.
  - apply zoom_percent_quarters; assumption.
Qed.

Lemma zoom_is_a_quarter_between_half_and_three_witness :
  JS.exact_on_quarters (fun x => x)
  /\ exists k,
       zoom (run (fun x => x) [ZoomInClick; ZoomInClick; ZoomOutClick]
                 initial) == k # 4
       /\ zoom_percent (fun x => x)
            (run (fun x => x) [ZoomInClick; ZoomInClick; ZoomOutClick]
                 initial) = (25 * k)%Z.
Proof.
  destruct NumberFacts.identity_rounds as (_ & _ & Hrnd).
  split; [exact Hrnd |].
  destruct (zoom_is_a_quarter_between_half_and_three (fun x => x)
              [ZoomInClick; ZoomInClick; ZoomOutClick] Hrnd)
    as (k & _ & Hk & _ & Hpercent).
  exists k. split; [exact Hk | exact Hpercent].
Defined.

(** X14. In every reachable state a zoom button is disabled exactly at its
    end of the range; while it is enabled, a click moves the zoom by
    exactly a quarter (the clamp is never exercised), and a click on the
    opposite button then restores the zoom. *)
Theorem zoom_clicks_step_by_a_quarter (rnd : Q -> Q) (events : list Event) :
  JS.exact_on_quarters rnd ->
  let st := run rnd events initial in
  (zoomOut_disabled st = true <-> zoom st == 1 # 2)
  /\ (zoomIn_disabled st = true <-> zoom st == 3)
  /\ (zoomIn_disabled st = false ->
      zoom (handle rnd ZoomInClick st) == zoom st + (1 # 4)
      /\ zoom (handle rnd ZoomOutClick (handle rnd ZoomInClick st))
         == zoom st)
  /\ (zoomOut_disabled st = false ->
      zoom (handle rnd ZoomOutClick st) == zoom st - (1 # 4)
      /\ zoom (handle rnd ZoomInClick (handle rnd ZoomOutClick st))
         == zoom st).
Proof.
  intros Hrnd st. destruct (run_zoom rnd Hrnd events) as (k & Hrange & Hk).
  fold st in Hk.
  pose proof (zoomOut_disabled_spec st k Hk) as Hout.
  pose proof (zoomIn_disabled_spec st k Hk) as Hin.
  split; [| split; [| split]].
  - rewrite Hout, Hk. unfold Qeq. simpl. lia.
  - rewrite Hin, Hk. unfold Qeq. simpl. lia.
  - intros Hen.
    assert (Hk11 : (k <= 11)%Z).
    { destruct (Z.le_gt_cases 12 k) as [Hge | Hlt]; [| lia].
      apply Hin in Hge. congruence. }
    pose proof (zoom_in_step rnd Hrnd st k Hk ltac:(lia)) as Hup.
    split.
    + rewrite Hup, Hk. unfold Qeq. simpl. lia.
    + rewrite (zoom_out_step rnd Hrnd _ (k + 1) Hup) by lia.
      rewrite Hk. unfold Qeq. simpl. lia.
  - intros Hen.
    assert (Hk3 : (3 <= k)%Z).
    { destruct (Z.le_gt_cases k 2) as [Hle | Hgt]; [| lia].
      apply Hout in Hle. congruence. }
    pose proof (zoom_out_step rnd Hrnd st k Hk ltac:(lia)) as Hdown.
    split.
    + rewrite Hdown, Hk. unfold Qeq. simpl. lia.
    + rewrite (zoom_in_step rnd Hrnd _ (k - 1) Hdown) by lia.
      rewrite Hk. unfold Qeq. simpl. lia.
Qed.

Lemma zoom_clicks_step_by_a_quarter_witness :
  JS.exact_on_quarters (fun x => x)
  /\ zoomIn_disabled (run (fun x => x) [ZoomOutClick] initial) = false
  /\ zoom (handle (fun x => x) ZoomInClick
             (run (fun x => x) [ZoomOutClick] initial))
     == zoom (run (fun x => x) [ZoomOutClick] initial) + (1 # 4).
Proof.
  destruct NumberFacts.identity_rounds as (_ & _ & Hrnd).
  split; [exact Hrnd |]. split; [reflexivity |].
  exact (proj1 (proj1 (proj2 (proj2
           (zoom_clicks_step_by_a_quarter (fun x => x) [ZoomOutClick] Hrnd)))
           eq_refl)).
Defined.

End PreviewFacts.

(** ** Index and NavigationBar: tabs and flags *)

Module AppFacts.
Import App.
Local Open Scope list_scope.

Lemma app_run_snoc (events : list Event) (e : Event) (st : State) :
  run (events ++ [e]) st = handle e (run events st).
Proof. unfold run. rewrite fold_left_app. reflexivity. Qed.

Lemma handle_flags (e : Event) (st : State) :
  isRecording st = false -> isSequenceRunning st = false ->
  isRecording (handle e st) = false
  /\ isSequenceRunning (handle e st) = false.
Proof.
  intros Hrec Hrun. destruct e; cbn [handle].
  - destruct (tabs !! index); auto.
  - auto.
  - rewrite Hrun. auto.
  - rewrite Hrun. auto.
  - destruct (captureTimeouts st); auto.
Qed.

Lemma run_flags (events : list Event) :
  isRecording (run events initial) = false
  /\ isSequenceRunning (run events initial) = false.
Proof.
  induction events as [| e events [IHrec IHrun]] using rev_ind.
  - split; reflexivity.
  - rewrite app_run_snoc. apply handle_flags; assumption.
Qed.

(** X15. No handler ever sets the recording flag or the sequence-running
    flag: in every reachable state both are false, so the navigation bar
    always offers Capture and Record, never Stop Sequence, and
    [handleStopCapture] is never run. *)
Theorem never_recording_nor_running (events : list Event) :
  let st := run events initial in
  isRecording st = false
  /\ isSequenceRunning st = false
  /\ handle StopSequenceClick st = st
  /\ handle CaptureClick st = handleStartCapture st.
Proof.
  intros st. destruct (run_flags events) as [Hrec Hrun]. fold st in Hrec, Hrun.
  split; [exact Hrec |]. split; [exact Hrun |].
  cbn [handle]. rewrite Hrun. split; reflexivity.
Qed.

Lemma handle_capturing (e : Event) (st : State) :
  (isCapturing st = true -> (0 < captureTimeouts st)%nat) ->
  isCapturing (handle e st) = true -> (0 < captureTimeouts (handle e st))%nat.
Proof.
  intros Hinv. destruct e; cbn [handle].
  - destruct (tabs !! index); exact Hinv.
  - exact Hinv.
  - destruct (isSequenceRunning st); [exact Hinv |].
    intros _. cbn [handleStartCapture captureTimeouts]. lia.
  - destruct (isSequenceRunning st); exact Hinv.
  - destruct (captureTimeouts st) eqn:Hpending.
    + intros Hon. specialize (Hinv Hon). lia.
    + cbn [isCapturing]. discriminate.
Qed.

(** X16. The capture indicator is on only while a capture timeout is
    pending, so it cannot stay on for ever; and the expiry of any timeout
    turns it off, also when a later capture still has its own timeout
    pending. *)
Theorem capturing_only_while_a_timeout_is_pending (events : list Event) :
  let st := run events initial in
  (isCapturing st = true -> (0 < captureTimeouts st)%nat)
  /\ isCapturing (handle CaptureTimeout st) = false.
Proof.
  intros st.
  assert (Hinv : isCapturing st = true -> (0 < captureTimeouts st)%nat).
  { subst st. induction events as [| e events IH] using rev_ind.
    - discriminate.
    - rewrite app_run_snoc. apply handle_capturing, IH. }
  split; [exact Hinv |].
  cbn [handle]. destruct (captureTimeouts st) eqn:Hpending; [| reflexivity].
  destruct (isCapturing st); [| reflexivity].
  specialize (Hinv eq_refl). lia.
Qed.

Lemma capturing_only_while_a_timeout_is_pending_witness :
  let st := run [CaptureClick; CaptureClick; CaptureTimeout] initial in
  isCapturing st = false /\ captureTimeouts st = 1%nat.
Proof.
  intros st. split; [| reflexivity].
  exact (proj2 (capturing_only_while_a_timeout_is_pending
                  [CaptureClick; CaptureClick])).
Defined.

Lemma handle_activeTab (e : Event) (st : State) :
  In (activeTab st) (map tab_id tabs) ->
  In (activeTab (handle e st)) (map tab_id tabs).
Proof.
  intros Hin. destruct e; cbn [handle]; try exact Hin.
  - destruct (tabs !! index) as [tab |] eqn:Htab; [| exact Hin].
    cbn [activeTab]. apply in_map. apply list_elem_of_In.
    eapply list_elem_of_lookup_2, Htab.
  - destruct (isSequenceRunning st); exact Hin.
  - destruct (isSequenceRunning st); exact Hin.
  - destruct (captureTimeouts st); exact Hin.
Qed.

(** X17. The active tab is always one of the four tabs of the navigation
    bar, and the page renders exactly one of its four panes, the one named
    by the active tab. *)
Theorem one_pane_per_tab (events : list Event) :
  let st := run events initial in
  In (activeTab st) (map tab_id tabs)
  /\ rendered_panes st = [activeTab st].
Proof.
  intros st.
  assert (Hin : In (activeTab st) (map tab_id tabs)).
  { subst st. induction events as [| e events IH] using rev_ind.
    - left. reflexivity.
    - rewrite app_run_snoc. apply handle_activeTab, IH. }
  split; [exact Hin |].
  unfold rendered_panes. simpl in Hin.
  destruct Hin as [<- | [<- | [<- | [<- | []]]]]; reflexivity.
Qed.

End AppFacts.
